(** * Tradecraft: the browser-side mock pipeline and the dispatch/poll client

    A shallow embedding of [frontend/src/agents/pipeline.js] and
    [frontend/src/services/api.js], and the properties of the specification
    that concern them.

    JavaScript numbers are IEEE 754 binary64 values: they are modelled by
    Rocq's primitive floats, whose operations are the same correctly rounded
    binary64 operations.  The exact value of a finite number is a rational
    ([SF2Q]); [toFixed] and [parseFloat] work on that exact value, as
    ECMAScript defines them.  Strings are byte strings; [toUpperCase] maps the
    letters a-z and leaves every other byte as it is.  Text that embeds a
    number keeps the number as it is ([piece]); the [log_id] of the
    Supervisor, made of the date and a random suffix, is left out.  The random
    source, the clock, timers, the network and the callbacks are explicit: a
    state that is threaded through the orchestrator, and a script of timer
    lags and fetch outcomes for the poll client. *)

From Stdlib Require Import ZArith QArith Qround Qabs Qpower Lia Lqa Floats Bool List.
From Stdlib Require Import Ascii String DecimalString.
From Stdlib Require Import DecimalPos DecimalZ.
From stdpp Require Import base option gmap strings.

Set Warnings "-inexact-float".

Local Open Scope Z_scope.

(* ------------------------------------------------------------------ *)
(** * Binary64 numbers and their exact values *)

Module Binary64.

Definition pow2 (e : Z) : Q := (2 ^ e)%Q.

(** [m * 2^e] *)
Definition dyadic (m e : Z) : Q := (inject_Z m * pow2 e)%Q.

(** The exact value of a finite binary64 number ([0] for the others). *)
Definition SF2Q (x : spec_float) : Q :=
  match x with
  | S754_finite s m e => (if s then -1 else 1) * inject_Z (Zpos m) * pow2 e
  | _ => 0
  end%Q.

(** [x] is a finite number and its value is at most [q]. *)
Definition sf_le (x : spec_float) (q : Q) : Prop :=
  match x with
  | S754_zero _ | S754_finite _ _ _ => (SF2Q x <= q)%Q
  | _ => False
  end.

(** [x] is a number, finite or [+Infinity], and its value is at least [q]. *)
Definition sf_ge (q : Q) (x : spec_float) : Prop :=
  match x with
  | S754_zero _ | S754_finite _ _ _ => (q <= SF2Q x)%Q
  | S754_infinity false => True
  | _ => False
  end.

(** [x] is a finite number whose value lies between [lo] and [hi]. *)
Definition finite_in (lo hi : Q) (x : float) : Prop :=
  sf_ge lo (Prim2SF x) /\ sf_le (Prim2SF x) hi.

(** [x] is a number that is not negative: finite or [+Infinity]. *)
Definition nonneg (x : float) : Prop := sf_ge 0 (Prim2SF x).

(** A record reached from the mantissa [m0] by [k] right shifts, when
    nothing was lost before the first of them. *)
Definition shifted (m0 k : Z) (x : shr_record) : Prop :=
  shr_m x = m0 / 2 ^ k
  /\ (m0 mod 2 ^ k = 0 -> shr_r x = false /\ shr_s x = false).

(** What a rounded mantissa [M] at exponent [g] is packed into. *)
Definition finish (M g : Z) : spec_float :=
  match M with
  | Zpos p =>
      if Z.eqb M (2 ^ 53) then
        if Z.leb (g + 1) 971
        then S754_finite false (Z.to_pos (2 ^ 52)) (g + 1)
        else S754_infinity false
      else if Z.leb g 971 then S754_finite false p g else S754_infinity false
  | _ => S754_zero false
  end.

(** The rounding of the positive value [m * 2^e] to the format. *)
Definition rnd (m : positive) (e : Z) : spec_float :=
  binary_round_aux prec emax false (Zpos m) e loc_Exact.

(** The exact value of a number. *)
Definition exact (x : float) : Q := SF2Q (Prim2SF x).

(** [x] is a positive finite number. *)
Definition positive_finite (x : float) : bool :=
  match Prim2SF x with S754_finite false _ _ => true | _ => false end.

(** The exponent of a finite number, its mantissa being an integer. *)
Definition exponent (x : float) : Z :=
  match Prim2SF x with S754_finite _ _ e => e | _ => 0 end.

(** The integers from [a] to [b]. *)
Definition Z_range (a b : Z) : list Z :=
  map (fun i => a + Z.of_nat i) (seq 0 (Z.to_nat (b - a + 1))).

End Binary64.

Import Binary64.

(* ------------------------------------------------------------------ *)
(** * JavaScript numbers *)

Module Js.

(** What [Number.prototype.toFixed] and the template literals produce, kept
    structured: the digits of a decimal numeral rather than its characters. *)
Inductive numeral :=
  | NumNaN
  | NumInfinity (neg : bool)
  | NumDecimal (neg : bool) (digits : Z) (fraction : Z)
      (** the decimal numeral of [digits / 10^fraction], signed *)
  | NumShortest (x : float)
      (** [Number::toString x]: the shortest numeral that reads back as [x] *).

(** [toFixed_digits f q]: the integer [n] for which [n / 10^f - q] is as close
    to zero as possible, the larger [n] when there are two ([q >= 0]). *)
Definition toFixed_digits (f : Z) (q : Q) : Z :=
  Qfloor (q * inject_Z (10 ^ f) + (1 # 2))%Q.

(** [x.toFixed(f)] (ECMAScript, Number.prototype.toFixed): a number that is
    not finite, or is at least 10^21 in magnitude, prints as [String(x)];
    the sign is taken off first when [x < 0], so that negative zero prints
    without one. *)
Definition toFixed (x : float) (f : Z) : numeral :=
  match Prim2SF x with
  | S754_nan => NumNaN
  | S754_infinity s => NumInfinity s
  | S754_zero _ => NumDecimal false 0 f
  | S754_finite s _ _ =>
      if (1e21 <=? abs x)%float then NumShortest x
      else NumDecimal s (toFixed_digits f (Qabs (exact x))) f
  end.

(** The binary64 number nearest to [n / 10^f] (ties to even), for [n >= 0]:
    the quotient is rounded once, by the specification's division. *)
Definition nearest_decimal (n f : Z) : float :=
  match n with
  | Zpos p =>
      SF2Prim (SFdiv prec emax (S754_finite false p 0)
                 (S754_finite false (Z.to_pos (10 ^ f)) 0))
  | _ => 0%float
  end.

(** [parseFloat] on the numerals above: the Number value of the numeral. *)
Definition parseFloat (t : numeral) : float :=
  match t with
  | NumNaN => nan
  | NumInfinity s => if s then neg_infinity else infinity
  | NumDecimal s n f =>
      if s then (- nearest_decimal n f)%float else nearest_decimal n f
  | NumShortest x => x
  end.

(** [parseFloat(x.toFixed(f))]: [x] rounded to [f] decimals, the way the
    pipeline rounds. *)
Definition round (x : float) (f : Z) : float := parseFloat (toFixed x f).

Definition is_neg_zero (x : float) : bool :=
  match Prim2SF x with S754_zero true => true | _ => false end.

(** [Math.min(a, b)]: NaN when either is NaN, and -0 is below +0. *)
Definition Math_min (a b : float) : float :=
  if is_nan a || is_nan b then nan
  else if (a <? b)%float then a
  else if (b <? a)%float then b
  else if is_neg_zero a then a else b.

(** [a > b] on numbers. *)
Definition gt (a b : float) : bool := (b <? a)%float.
(** [a >= b] and [a <= b] on numbers. *)
Definition ge (a b : float) : bool := (b <=? a)%float.
Definition le (a b : float) : bool := (a <=? b)%float.

(** The numeral of an integer, as [String(n)] prints it. *)
Definition string_of_Z (n : Z) : string :=
  NilZero.string_of_int (Z.to_int n).

End Js.

(* ------------------------------------------------------------------ *)
(** * Strings *)

Local Open Scope string_scope.

Definition upper_ascii (c : ascii) : ascii :=
  let n := nat_of_ascii c in
  if Nat.leb 97 n && Nat.leb n 122 then ascii_of_nat (n - 32) else c.

(** [String.prototype.toUpperCase], on the letters a-z. *)
Fixpoint toUpperCase (s : string) : string :=
  match s with
  | EmptyString => EmptyString
  | String c r => String (upper_ascii c) (toUpperCase r)
  end.

(** [s.slice(0, n)] *)
Definition slice0 (n : nat) (s : string) : string := String.substring 0 n s.

(** A template literal with numbers in it: the literal text and the
    interpolated values, in order. *)
Inductive piece :=
  | Lit (s : string)
  | Num (x : float)
  | Null.

Definition text := list piece.

Definition num_or_null (x : option float) : piece :=
  match x with Some a => Num a | None => Null end.

(* ------------------------------------------------------------------ *)
(** * The data model of pipeline.js *)

Module Profile.
Record t := mk {
  bias : string; action : string;
  price : float; stop : float; tp : float; sharpe : float }.
End Profile.

Module Event.
Record t := mk { headline : string; ticker : string; source : string }.
End Event.

Module Research.
Record t := mk {
  signal : string; confidence : float; summary : string;
  sources : list string; regime : string; key_risks : list string }.
End Research.

Module Signal.
Record t := mk {
  action : string; ticker : string; size_pct : float;
  entry_price : float; stop_loss : float; take_profit : float;
  rationale : string; backtest_sharpe : float;
  expected_return_pct : float; based_on_signal_id : string }.
End Signal.

Module Risk.
Record metrics := mk_metrics {
  position_limit_ok : bool; drawdown_ok : bool; liquidity_ok : bool }.
Record t := mk {
  verdict : string; veto : bool;
  adjusted_size_pct : option float;   (** [None] is JavaScript's [null] *)
  reason : text; risk_metrics : metrics }.
End Risk.

Module Execution.
Record order := mk_order {
  strategy : string; duration_min : Z; child_orders : Z;
  limit_price : float; expected_slippage_bps : float;
  venue : string; status : string; notes : text }.
(** The two shapes [runExecutionAgent] returns. *)
Inductive t :=
  | Rejected (status : string) (reason : string)
  | Order (o : order).
End Execution.

Module Supervisor.
(** [log_id], text made of the date and a random suffix, is left out. *)
Record t := mk {
  audit_status : string; circuit_breaker_triggered : bool;
  human_review_required : bool; flags : list string;
  compliance_notes : string; decision_chain_complete : bool;
  total_messages_audited : nat }.
End Supervisor.

(** The values held by a results object: the five payloads, and the two
    top-level fields [_vetoed] and [status]. *)
Inductive value :=
  | VResearch (p : Research.t)
  | VSignal (p : Signal.t)
  | VRisk (p : Risk.t)
  | VExecution (p : Execution.t)
  | VSupervisor (p : Supervisor.t)
  | VBool (b : bool)
  | VStr (s : string).

(** A results object: an object used as a map from keys to values. *)
Abbreviation results := (gmap string value).

(** [Boolean(o.k)]: a missing key is [undefined]. *)
Definition truthy (v : option value) : bool :=
  match v with
  | None => false
  | Some (VBool b) => b
  | Some (VStr s) => negb (String.eqb s "")
  | Some _ => true
  end.

(** [Boolean(o?.veto)] *)
Definition veto_of (v : option value) : bool :=
  match v with
  | Some (VRisk r) => Risk.veto r
  | _ => false
  end.

(* ------------------------------------------------------------------ *)
(** * The ticker profiles *)

Definition TICKER_PROFILES : gmap string Profile.t :=
  <["NVDA" := Profile.mk "BULLISH" "LONG"  875.00 850.00 920.00 1.8]>
 (<["AAPL" := Profile.mk "BEARISH" "SHORT" 189.50 193.00 182.00 1.4]>
 (<["SPY"  := Profile.mk "BEARISH" "SHORT" 502.00 512.00 488.00 1.1]>
 (<["MSFT" := Profile.mk "BULLISH" "LONG"  415.00 402.00 435.00 1.6]>
 (<["TSLA" := Profile.mk "BEARISH" "SHORT" 265.00 278.00 248.00 0.9]>
 (<["META" := Profile.mk "BULLISH" "LONG"  510.00 495.00 535.00 1.7]> ∅))))).

Definition neutral_profile : Profile.t :=
  Profile.mk "NEUTRAL" "HOLD" 100.00 95.00 108.00 0.8.

Definition getProfile (ticker : string) : Profile.t :=
  default neutral_profile (TICKER_PROFILES !! toUpperCase ticker).

Definition known_tickers : list string :=
  ["NVDA"; "AAPL"; "SPY"; "MSFT"; "TSLA"; "META"].

(* ------------------------------------------------------------------ *)
(** * What the orchestrator acts on

    [Math.random()] reads the next draw of a random source; the callback
    [onStep] is recorded as the list of its calls.  [delay] suspends the
    run and has no other effect: only its argument, which draws a jitter,
    is evaluated. *)

Record step_call := StepCall {
  call_key : string; call_payload : value;
  call_done : option bool   (** the third argument, when one is passed *) }.

Record world := World {
  rng : nat -> float;        (** the successive values of [Math.random()] *)
  drawn : nat;               (** how many of them have been read *)
  calls : list step_call     (** the calls of [onStep], oldest first *) }.

Definition M (A : Type) : Type := world -> A * world.

(** Every value of [Math.random()] is at least 0 and below 1. *)
Definition unit_draws (rng : nat -> float) : Prop :=
  forall i, Js.ge (rng i) 0 = true /\ Js.gt 1 (rng i) = true.

#[global] Instance M_ret : MRet M := fun A a w => (a, w).
#[global] Instance M_bind : MBind M :=
  fun A B k m w => let (a, w') := m w in k a w'.

Definition ret {A} (a : A) : M A := mret a.

Definition Math_random : M float :=
  fun w => (rng w (drawn w), World (rng w) (S (drawn w)) (calls w)).

Definition onStep (key : string) (payload : value) (done : option bool)
  : M unit :=
  fun w =>
    (tt, World (rng w) (drawn w) (calls w ++ [StepCall key payload done])).

Definition jitter : M float :=
  r ← Math_random; ret (r * 400)%float.

Definition delay (ms : float) : M unit := ret tt.

(* ------------------------------------------------------------------ *)
(** * The agent simulators *)

Definition buildResearchSummary (event : Event.t) (profile : Profile.t)
  : string :=
  let dir :=
    if String.eqb (Profile.bias profile) "BULLISH" then "upside"
    else if String.eqb (Profile.bias profile) "BEARISH" then "downside"
    else "sideways" in
  Event.headline event ++ " Points to " ++ dir ++ " momentum for "
  ++ Event.ticker event ++ ". Macro regime: "
  ++ (if String.eqb (Profile.bias profile) "BULLISH"
      then "RISK_ON" else "RISK_OFF") ++ ".".

Definition buildRisks (profile : Profile.t) : list string :=
  let base := ["Macro regime shift"; "Fed policy surprise"] in
  if String.eqb (Profile.bias profile) "BULLISH"
  then base ++ ["Overbought technicals"; "Earnings miss risk"]
  else base ++ ["Short squeeze potential"; "Sector rotation inflows"].

Definition runResearcher (event : Event.t) : M Research.t :=
  let profile := getProfile (Event.ticker event) in
  r ← Math_random;
  let confidence := Js.round (0.65 + r * 0.28)%float 2 in
  ret {| Research.signal := Profile.bias profile;
         Research.confidence := confidence;
         Research.summary := buildResearchSummary event profile;
         Research.sources := [Event.source event; "Macro Desk"; "SEC Filings"];
         Research.regime :=
           if String.eqb (Profile.bias profile) "BULLISH"
           then "RISK_ON" else "RISK_OFF";
         Research.key_risks := buildRisks profile |}.

Definition runSignalAgent (event : Event.t) (researchPayload : Research.t)
  : Signal.t :=
  let profile := getProfile (Event.ticker event) in
  let confidence := Research.confidence researchPayload in
  let size := Js.round (Js.Math_min (confidence * 12)%float 8%float) 1 in
  {| Signal.action :=
       if String.eqb (Research.signal researchPayload) "BULLISH" then "LONG"
       else if String.eqb (Research.signal researchPayload) "BEARISH"
            then "SHORT" else "HOLD";
     Signal.ticker := toUpperCase (Event.ticker event);
     Signal.size_pct := size;
     Signal.entry_price := Profile.price profile;
     Signal.stop_loss := Profile.stop profile;
     Signal.take_profit := Profile.tp profile;
     Signal.rationale :=
       slice0 80 (Research.summary researchPayload)
       ++ "... Pattern match: 5 similar events → "
       ++ (if String.eqb (Profile.bias profile) "BULLISH" then "+" else "-")
       ++ "1.2% median 3-day move.";
     Signal.backtest_sharpe := Profile.sharpe profile;
     Signal.expected_return_pct :=
       Js.round
         ((Profile.tp profile - Profile.price profile)
          / Profile.price profile * 100)%float 2;
     Signal.based_on_signal_id := "mock-res-001" |}.

Definition MAX_POS : float := 5.0%float.

Definition runRiskManager (signalPayload : Signal.t) : Risk.t :=
  let rawSize := Signal.size_pct signalPayload in
  let veto :=
    Js.gt rawSize 20%float || String.eqb (Signal.action signalPayload) "HOLD" in
  let adjusted := if veto then None else Some (Js.Math_min rawSize MAX_POS) in
  let verdict :=
    if veto then "VETOED"
    else if Js.gt rawSize MAX_POS then "APPROVED_WITH_CONDITIONS"
    else "APPROVED" in
  {| Risk.verdict := verdict;
     Risk.veto := veto;
     Risk.adjusted_size_pct := adjusted;
     Risk.reason :=
       if veto
       then [Lit "Position "; Num rawSize;
             Lit "% exceeds hard limit or HOLD signal — trade rejected."]
       else if Js.gt rawSize MAX_POS
       then [Lit "Scaled "; Num rawSize; Lit "% → "; num_or_null adjusted;
             Lit "% (single-stock 5% cap). Drawdown headroom: 3.8%."]
       else [Lit "Position "; Num rawSize;
             Lit "% within risk limits. Drawdown headroom: 6.2%."];
     Risk.risk_metrics :=
       {| Risk.position_limit_ok := Js.le rawSize MAX_POS;
          Risk.drawdown_ok := true;
          Risk.liquidity_ok := true |} |}.

Definition runExecutionAgent (signalPayload : Signal.t) (riskPayload : Risk.t)
  : M Execution.t :=
  if Risk.veto riskPayload
  then ret (Execution.Rejected "REJECTED" "Vetoed by Risk Manager.")
  else
    let effectiveSize :=
      default (Signal.size_pct signalPayload)
              (Risk.adjusted_size_pct riskPayload) in
    let strategy := if Js.gt effectiveSize 3%float then "TWAP" else "LIMIT" in
    r ← Math_random;
    ret (Execution.Order
      {| Execution.strategy := strategy;
         Execution.duration_min := 30;
         Execution.child_orders := 6;
         Execution.limit_price := Signal.entry_price signalPayload;
         Execution.expected_slippage_bps := Js.round (3.5 + r * 2)%float 1;
         Execution.venue := "PAPER_EXCHANGE";
         Execution.status := "SIMULATED_FILL";
         Execution.notes :=
           [Lit strategy; Lit " over 30 min. Size: "; Num effectiveSize;
            Lit "% of NAV."] |}).

Definition runSupervisor (all : results) : M Supervisor.t :=
  _suffix ← Math_random;
  let hasResearch := truthy (all !! "researcher") in
  let hasRisk := truthy (all !! "risk_manager") in
  let chainOk := hasResearch && hasRisk in
  ret {| Supervisor.audit_status :=
           if chainOk then "COMPLIANT" else "NON_COMPLIANT";
         Supervisor.circuit_breaker_triggered := false;
         Supervisor.human_review_required := veto_of (all !! "risk_manager");
         Supervisor.flags :=
           if chainOk then [] else ["Missing research basis or risk review"];
         Supervisor.compliance_notes :=
           if chainOk
           then "Full decision chain verified. Risk limits honored. No regulatory flags detected."
           else "Incomplete decision chain — manual review required.";
         Supervisor.decision_chain_complete := chainOk;
         Supervisor.total_messages_audited := size all |}.

(* ------------------------------------------------------------------ *)
(** * The orchestrator *)

(** [await delay(base + jitter())] *)
Definition pause (base : float) : M unit :=
  j ← jitter; delay (base + j)%float.

Definition runMockPipeline (event : Event.t) : M results :=
  let results0 : results := ∅ in
  (* 1. Researcher *)
  pause 600;;
  researchPayload ← runResearcher event;
  let results1 := <["researcher" := VResearch researchPayload]> results0 in
  onStep "researcher" (VResearch researchPayload) None;;
  (* 2. Signal Agent *)
  pause 700;;
  let signalPayload := runSignalAgent event researchPayload in
  let results2 := <["signal_agent" := VSignal signalPayload]> results1 in
  onStep "signal_agent" (VSignal signalPayload) None;;
  (* 3. Risk Manager *)
  pause 800;;
  let riskPayload := runRiskManager signalPayload in
  let results3 := <["risk_manager" := VRisk riskPayload]> results2 in
  onStep "risk_manager" (VRisk riskPayload) None;;
  if Risk.veto riskPayload then
    (* Early exit: run supervisor for audit, then stop *)
    pause 500;;
    supervisorPayload ← runSupervisor results3;
    let results4 := <["supervisor" := VSupervisor supervisorPayload]> results3 in
    onStep "supervisor" (VSupervisor supervisorPayload) (Some true);;
    ret (<["_vetoed" := VBool true]> results4)
  else
    (* 4. Execution Agent *)
    pause 700;;
    execPayload ← runExecutionAgent signalPayload riskPayload;
    let results4 := <["execution_agent" := VExecution execPayload]> results3 in
    onStep "execution_agent" (VExecution execPayload) None;;
    (* 5. Supervisor *)
    pause 600;;
    supervisorPayload ← runSupervisor results4;
    let results5 := <["supervisor" := VSupervisor supervisorPayload]> results4 in
    onStep "supervisor" (VSupervisor supervisorPayload) (Some true);;
    ret (<["_vetoed" := VBool false]> (<["status" := VStr "complete"]> results5)).

(* ------------------------------------------------------------------ *)
(** * The API service (api.js)

    The clock is read in milliseconds.  It advances while a promise is
    awaited (a timer, a request, the reading of a body) and stands still
    otherwise. *)

Inductive JsError := Error (message : string).

Inductive result (A : Type) :=
  | Returned (a : A)
  | Thrown (e : JsError).
Arguments Returned {A} a.
Arguments Thrown {A} e.

Record config := Config { GITHUB_OWNER : string; GITHUB_REPO : string }.

Definition API_VERSION : string := "2022-11-28".

(** [resp.ok]: the status is in the range 200-299 (Fetch standard). *)
Definition status_ok (status : Z) : bool :=
  Z.leb 200 status && Z.leb status 299.

Module Dispatch.
Record inputs := mk_inputs {
  headline : string; ticker : string; source : string; run_id : string }.
(** The object given to [JSON.stringify]. *)
Record body := mk_body { ref : string; inputs_of : inputs }.
Record request := mk_request {
  url : string; method : string;
  headers : list (string * string); body_of : body }.
(** The document of a GitHub REST error: an object that may carry a
    string [message]. *)
Record error_body := mk_error { message : option string }.
Record response := mk_response {
  status : Z;
  json : option error_body   (** [None]: [resp.json()] rejects *) }.
(** What [fetch] settles to: a rejection, or a response. *)
Inductive outcome :=
  | Failed (e : JsError)
  | Responded (r : response).
End Dispatch.

(** [x || y] on an optional string: the empty string is falsy. *)
Definition or_else (x : option string) (y : string) : string :=
  match x with
  | Some s => if String.eqb s "" then y else s
  | None => y
  end.

(** [dispatchPipeline(event, token)], at time [now], over a network that
    answers a request with [net]: the result, and the requests sent. *)
Definition dispatchPipeline (cfg : config) (now : Z)
    (net : Dispatch.request -> Dispatch.outcome)
    (event : Event.t) (token : string)
  : result string * list Dispatch.request :=
  let runId := "run-" ++ Js.string_of_Z now in
  let req :=
    {| Dispatch.url :=
         "https://api.github.com/repos/" ++ GITHUB_OWNER cfg ++ "/"
         ++ GITHUB_REPO cfg ++ "/actions/workflows/pipeline-run.yml/dispatches";
       Dispatch.method := "POST";
       Dispatch.headers :=
         [("Authorization", "Bearer " ++ token);
          ("Accept", "application/vnd.github+json");
          ("X-GitHub-Api-Version", API_VERSION);
          ("Content-Type", "application/json")];
       Dispatch.body_of :=
         {| Dispatch.ref := "main";
            Dispatch.inputs_of :=
              {| Dispatch.headline := Event.headline event;
                 Dispatch.ticker := Event.ticker event;
                 Dispatch.source := Event.source event;
                 Dispatch.run_id := runId |} |} |} in
  match net req with
  | Dispatch.Failed e => (Thrown e, [req])
  | Dispatch.Responded resp =>
      if negb (status_ok (Dispatch.status resp)) then
        (* resp.json().catch(() => ({})) *)
        let err := default (Dispatch.mk_error None) (Dispatch.json resp) in
        (Thrown (Error
           (or_else (Dispatch.message err)
              ("Dispatch failed: " ++ Js.string_of_Z (Dispatch.status resp)))),
         [req])
      else (Returned runId, [req])
  end.

Module Poll.
(** What [resp.json()] settles to. *)
Inductive body :=
  | Invalid                 (** the promise rejects *)
  | JsonNull                (** [null], or a value without properties *)
  | Object (data : results).
Inductive outcome :=
  | Failed                  (** [fetch] rejects *)
  | Responded (status : Z) (b : body).
(** One turn of the loop as the environment decides it: by how much the
    timer overshoots, what the request settles to, and how long the
    request and the reading of its body take. *)
Record tick := mk_tick { lag : Z; fetched : outcome; latency : Z }.
Record opts := mk_opts { maxWaitMs : option Z; intervalMs : option Z }.
(** What the run does that can be observed from outside. *)
Inductive event :=
  | Ping (seconds : Z)      (** a call of [onPing] *)
  | Fetch (url : string) (at_time : Z).
End Poll.

(** [Math.round(a / 1000)] on integers: halves go up. *)
Definition round_seconds (a : Z) : Z := (a + 500) / 1000.

(** [data?.status === 'complete'] *)
Definition is_complete (b : Poll.body) : bool :=
  match b with
  | Poll.Object data =>
      match data !! "status" with
      | Some (VStr s) => String.eqb s "complete"
      | _ => false
      end
  | _ => false
  end.

Definition timeout_error : JsError :=
  Error "Pipeline timed out after 2 minutes. Check Actions tab.".

(** The loop of [pollForResult] from its [k]-th turn, at time [now].
    [None]: the turns allowed by [fuel] are used up. *)
Fixpoint poll_loop (fuel : nat) (script : nat -> Poll.tick) (url : string)
    (deadline intervalMs : Z) (k : nat) (now : Z) (log : list Poll.event)
  : option (result results * list Poll.event) :=
  match fuel with
  | O => None
  | S fuel' =>
      if Z.ltb now deadline then
        let t := script k in
        (* await sleep(intervalMs) *)
        let now1 := now + Z.max 0 intervalMs + Poll.lag t in
        let log1 := (log ++ [Poll.Ping (round_seconds (deadline - now1))])%list in
        let log2 :=
          (log1 ++ [Poll.Fetch (url ++ "&t=" ++ Js.string_of_Z now1) now1])%list in
        let now2 := now1 + Poll.latency t in
        let next := poll_loop fuel' script url deadline intervalMs (S k) now2 log2 in
        match Poll.fetched t with
        | Poll.Responded status b =>
            if status_ok status then
              match b with
              | Poll.Object data =>
                  if is_complete b then Some (Returned data, log2) else next
              | _ => next
              end
            else next
        | Poll.Failed => next
        end
      else Some (Thrown timeout_error, log)
  end.

Definition pollForResult (fuel : nat) (script : nat -> Poll.tick) (start : Z)
    (runId : string) (o : Poll.opts)
  : option (result results * list Poll.event) :=
  let maxWaitMs := default 120000 (Poll.maxWaitMs o) in
  let intervalMs := default 3000 (Poll.intervalMs o) in
  let url := "./data/pipeline-" ++ runId ++ ".json?t=" ++ Js.string_of_Z start in
  let deadline := start + maxWaitMs in
  poll_loop fuel script url deadline intervalMs 0 start [].

(** The requests of a run, and when they were sent. *)
Definition fetch_times (log : list Poll.event) : list Z :=
  omap (fun e => match e with Poll.Fetch _ t => Some t | _ => None end) log.

Definition attempts (log : list Poll.event) : nat := length (fetch_times log).

(** [Math.ceil(D / I)] for a positive [I]. *)
Definition ceil_div (D I : Z) : Z := - ((- D) / I).

(* ------------------------------------------------------------------ *)
(** * The course of a poll, told from the script

    These notions do not come from the code: they say, of a script, when
    the loop tests the deadline and sends its requests, and what comes
    back, so that the loop can be compared with them. *)

(** What a turn answers: the data of a successful response whose body is
    complete, if that is what the request settles to. *)
Definition answer (t : Poll.tick) : option results :=
  match Poll.fetched t with
  | Poll.Responded status (Poll.Object data) =>
      if status_ok status && is_complete (Poll.Object data)
      then Some data else None
  | _ => None
  end.

(** When the [k]-th test of the deadline happens. *)
Fixpoint turn_time (script : nat -> Poll.tick) (intervalMs start : Z)
    (k : nat) : Z :=
  match k with
  | O => start
  | S j =>
      turn_time script intervalMs start j + Z.max 0 intervalMs
      + Poll.lag (script j) + Poll.latency (script j)
  end.

(** When the request of the [k]-th turn is sent. *)
Definition fetch_time (script : nat -> Poll.tick) (intervalMs start : Z)
    (k : nat) : Z :=
  turn_time script intervalMs start k + Z.max 0 intervalMs
  + Poll.lag (script k).

(** Timers are not early and requests take time. *)
Definition causal (script : nat -> Poll.tick) : Prop :=
  forall k, 0 <= Poll.lag (script k) /\ 0 <= Poll.latency (script k).

(** The outcome [r], with the log [log'], of a loop entered at its [k]-th
    turn with the log [log]: the turn [n] at which it ends, every turn
    before it having passed the test and found nothing. *)
Definition loop_outcome (script : nat -> Poll.tick)
    (deadline intervalMs start : Z) (k : nat) (log : list Poll.event)
    (r : result results) (log' : list Poll.event) : Prop :=
  exists n, (k <= n)%nat
    /\ (forall j, (k <= j < n)%nat ->
          turn_time script intervalMs start j < deadline
          /\ answer (script j) = None)
    /\ match r with
       | Returned data =>
           turn_time script intervalMs start n < deadline
           /\ answer (script n) = Some data
           /\ fetch_times log' =
                (fetch_times log
                 ++ map (fetch_time script intervalMs start) (seq k (S n - k)))%list
       | Thrown e =>
           e = timeout_error
           /\ deadline <= turn_time script intervalMs start n
           /\ fetch_times log' =
                (fetch_times log
                 ++ map (fetch_time script intervalMs start) (seq k (n - k)))%list
       end.

(* ------------------------------------------------------------------ *)
(** * Sample inputs *)

Module Sample.

Definition nvda : Event.t :=
  Event.mk "NVDA beats earnings" "NVDA" "NASDAQ Filing".

Definition unknown : Event.t := Event.mk "Quiet day" "zzz" "Newswire".

(** A random source whose second draw makes the confidence 0.80. *)
Definition source (n : nat) : float :=
  match n with
  | 1%nat => 0.5357142857142857%float
  | _ => 0.5%float
  end.

Definition start : world := World source 0 [].

(** A random source that always draws 0.99. *)
Definition high : world := World (fun _ => 0.99%float) 0 [].

Definition research : Research.t :=
  Research.mk "BULLISH" 0.8 "NVDA beats earnings" [] "RISK_ON" [].

Definition signal : Signal.t :=
  Signal.mk "LONG" "NVDA" 8 875 850 920 "" 1.8 5.14 "mock-res-001".

Definition approved : Risk.t := runRiskManager signal.

Definition complete_run : results := <["status" := VStr "complete"]> ∅.

(** Every request is answered at once with a complete result. *)
Definition ready (k : nat) : Poll.tick :=
  Poll.mk_tick 0 (Poll.Responded 200 (Poll.Object complete_run)) 0.

(** Timers fire 5 ms late, and the result is there at the 40th request. *)
Definition late (k : nat) : Poll.tick :=
  Poll.mk_tick 5
    (if Nat.eqb k 39 then Poll.Responded 200 (Poll.Object complete_run)
     else Poll.Failed)
    0.

Definition defaults : Poll.opts := Poll.mk_opts None None.

Definition cfg : config := Config "acme" "tradecraft".


End Sample.

(** What a run shows of itself: the bias and confidence of the research,
    the action, size and entry of the signal, the verdict and adjusted
    size of the risk review, the strategy of the execution, the audit
    status, the need for a human review, the number of messages audited,
    the veto flag, and the steps reported. *)
Definition digest (run : results * world) :=
  let res := run.1 in
  (match res !! "researcher" with
   | Some (VResearch p) => Some (Research.signal p, Research.confidence p)
   | _ => None
   end,
   match res !! "signal_agent" with
   | Some (VSignal p) =>
       Some (Signal.action p, Signal.size_pct p, Signal.entry_price p)
   | _ => None
   end,
   match res !! "risk_manager" with
   | Some (VRisk p) => Some (Risk.verdict p, Risk.adjusted_size_pct p)
   | _ => None
   end,
   match res !! "execution_agent" with
   | Some (VExecution (Execution.Order o)) => Some (Execution.strategy o)
   | _ => None
   end,
   match res !! "supervisor" with
   | Some (VSupervisor p) =>
       Some (Supervisor.audit_status p, Supervisor.human_review_required p,
             Supervisor.total_messages_audited p)
   | _ => None
   end,
   res !! "_vetoed",
   map call_key (calls run.2)).


(* ------------------------------------------------------------------ *)
(** * The saved results and the token (api.js) *)

Set Warnings "-register-all".

(** A JSON document, as [resp.json()] gives it. *)
Inductive json :=
  | JNull
  | JBool (b : bool)
  | JNumber (x : float)
  | JString (s : string)
  | JArray (items : list json)
  | JObject (fields : list (string * json)).

Module Load.
(** What [resp.json()] settles to. *)
Inductive body :=
  | Invalid (e : JsError)   (** the promise rejects with [e] *)
  | Parsed (document : json).
Record response := mk_response { status : Z; json_of : body }.
(** What [fetch] settles to: a rejection, or a response. *)
Inductive outcome :=
  | Failed (e : JsError)
  | Responded (r : response).
End Load.

(** [try { attempt } catch { return v }] *)
Definition catch_return {A} (attempt : result A) (v : A) : result A :=
  match attempt with
  | Returned a => Returned a
  | Thrown _ => Returned v
  end.

(** [loadRunsIndex()], at time [now], over a network that answers the
    request of a URL with [net]: the result, and the URLs requested. *)
Definition loadRunsIndex (now : Z) (net : string -> Load.outcome)
  : result json * list string :=
  let url := "./data/runs-index.json?t=" ++ Js.string_of_Z now in
  (catch_return
     match net url with
     | Load.Failed e => Thrown e
     | Load.Responded resp =>
         if negb (status_ok (Load.status resp)) then Returned (JArray [])
         else
           match Load.json_of resp with
           | Load.Invalid e => Thrown e
           | Load.Parsed document => Returned document
           end
     end
     (JArray []),
   [url]).

(** [loadRun(runId)] *)
Definition loadRun (now : Z) (net : string -> Load.outcome) (runId : string)
  : result json * list string :=
  let url :=
    "./data/pipeline-" ++ runId ++ ".json?t=" ++ Js.string_of_Z now in
  (match net url with
   | Load.Failed e => Thrown e
   | Load.Responded resp =>
       if negb (status_ok (Load.status resp))
       then Thrown (Error ("Run " ++ runId ++ " not found"))
       else
         match Load.json_of resp with
         | Load.Invalid e => Thrown e
         | Load.Parsed document => Returned document
         end
   end,
   [url]).

(** [sessionStorage]: an object used as a map from keys to strings. *)
Abbreviation storage := (gmap string string).

Definition TOKEN_KEY : string := "tradecraft_gh_token".

Definition saveToken (token : string) (sessionStorage : storage) : storage :=
  <[TOKEN_KEY := token]> sessionStorage.

(** [getItem] gives [null] for a key that is not there. *)
Definition loadToken (sessionStorage : storage) : string :=
  default "" (sessionStorage !! TOKEN_KEY).

Definition clearToken (sessionStorage : storage) : storage :=
  delete TOKEN_KEY sessionStorage.

Definition hasToken (sessionStorage : storage) : bool :=
  negb (String.eqb (loadToken sessionStorage) "").

(** The events of one turn of [pollForResult] whose request is sent at
    [t]: the ping with the seconds left, then the request. *)
Definition turn_events (url : string) (deadline t : Z) : list Poll.event :=
  [Poll.Ping (round_seconds (deadline - t));
   Poll.Fetch (url ++ "&t=" ++ Js.string_of_Z t) t].

(* ------------------------------------------------------------------ *)
(** * The audit log and the tags of the steps (main.js)

    Of main.js, what does not touch the document: the audit log kept in
    [localStorage], the tags derived from a payload, and what the callback
    of [runLocalMock] does to the variables of the run. *)

Definition AUDIT_KEY : string := "tradecraft_audit_log".

Definition AGENT_ORDER : list string :=
  ["researcher"; "signal_agent"; "risk_manager"; "execution_agent";
   "supervisor"].

Section AuditLog.
(** The entries of the log: objects made of strings, which [JSON.parse]
    gives back as [JSON.stringify] got them.  A cell of [localStorage] is
    kept as the array that its text denotes. *)
Variable entry : Type.

Definition getAuditEntries (localStorage : gmap string (list entry))
  : list entry :=
  default [] (localStorage !! AUDIT_KEY).

Definition saveAuditEntry (e : entry) (localStorage : gmap string (list entry))
  : gmap string (list entry) :=
  let entries := e :: getAuditEntries localStorage in   (* unshift *)
  let entries :=
    if Nat.ltb 200 (length entries) then take 200 entries else entries in
  <[AUDIT_KEY := entries]> localStorage.

(** [entries.reverse().forEach(entry => saveAuditEntry(entry))], the
    loop of [persistAuditEntries]. *)
Definition saveAuditEntries (entries : list entry)
    (localStorage : gmap string (list entry)) : gmap string (list entry) :=
  fold_left (fun store e => saveAuditEntry e store) (rev entries) localStorage.

End AuditLog.

Arguments getAuditEntries {entry} localStorage.
Arguments saveAuditEntry {entry} e localStorage.
Arguments saveAuditEntries {entry} entries localStorage.

(** The agents [persistAuditEntries] writes an entry for. *)
Definition agentsToLog (vetoed : bool) : list string :=
  if vetoed
  then ["researcher"; "signal_agent"; "risk_manager"; "supervisor"]
  else AGENT_ORDER.

(** [data.signal], [data.action], [data.verdict], [data.status] and
    [data.audit_status]: [None] is the [undefined] that a payload without
    the field gives. *)
Definition signal_of (data : value) : option string :=
  match data with VResearch p => Some (Research.signal p) | _ => None end.

Definition action_of (data : value) : option string :=
  match data with VSignal p => Some (Signal.action p) | _ => None end.

Definition verdict_of (data : value) : option string :=
  match data with VRisk p => Some (Risk.verdict p) | _ => None end.

Definition status_of (data : value) : option string :=
  match data with
  | VExecution (Execution.Rejected status _) => Some status
  | VExecution (Execution.Order o) => Some (Execution.status o)
  | _ => None
  end.

Definition audit_status_of (data : value) : option string :=
  match data with
  | VSupervisor p => Some (Supervisor.audit_status p)
  | _ => None
  end.

(** [s.split('_')[0]]: what comes before the first underscore. *)
Fixpoint before_underscore (s : string) : string :=
  match s with
  | EmptyString => EmptyString
  | String c r =>
      if Ascii.eqb c "_" then EmptyString else String c (before_underscore r)
  end.

(** The object [map] is looked up by its own keys, the five agents. *)
Definition deriveTagText (agentKey : string) (data : value) : string :=
  let map : gmap string string :=
    <["researcher" := or_else (signal_of data) "DONE"]>
   (<["signal_agent" := or_else (action_of data) "DONE"]>
   (<["risk_manager" := before_underscore (or_else (verdict_of data) "DONE")]>
   (<["execution_agent" := or_else (status_of data) "DONE"]>
   (<["supervisor" := or_else (audit_status_of data) "DONE"]> ∅)))) in
  default "DONE" (map !! agentKey).

(** [x === 's'] on an optional string. *)
Definition is_str (x : option string) (s : string) : bool :=
  match x with Some a => String.eqb a s | None => false end.

Definition deriveTagClass (agentKey : string) (data : value) : string :=
  if String.eqb agentKey "researcher" then
    if is_str (signal_of data) "BEARISH" then "bearish"
    else if is_str (signal_of data) "BULLISH" then "bullish" else ""
  else if String.eqb agentKey "signal_agent" then
    if is_str (action_of data) "SHORT" then "bearish"
    else if is_str (action_of data) "LONG" then "bullish" else ""
  else if String.eqb agentKey "risk_manager" then
    if veto_of (Some data) then "vetoed" else "approved"
  else if String.eqb agentKey "execution_agent" then
    if is_str (status_of data) "REJECTED" then "vetoed" else "approved"
  else if String.eqb agentKey "supervisor" then
    if is_str (audit_status_of data) "COMPLIANT" then "compliant"
    else "warning"
  else "".

(** The variables that the callback of [runLocalMock] writes; the counter
    is an integer. *)
Record mock_vars := MockVars {
  vetoed : bool; vetoCount : Z; allPayloads : results }.

(** What the callback passes to [setAgentState] for a step: the state of
    the card, the text of the tag and its class. *)
Definition step_display (c : step_call) : string * string * string :=
  if String.eqb (call_key c) "risk_manager" && veto_of (Some (call_payload c))
  then ("vetoed", "VETOED", "vetoed")
  else ("done",
        deriveTagText (call_key c) (call_payload c),
        deriveTagClass (call_key c) (call_payload c)).

(** What the callback does to the variables, for one step. *)
Definition on_mock_step (v : mock_vars) (c : step_call) : mock_vars :=
  let all := <[call_key c := call_payload c]> (allPayloads v) in
  if String.eqb (call_key c) "risk_manager" && veto_of (Some (call_payload c))
  then MockVars true (vetoCount v + 1) all
  else MockVars (vetoed v) (vetoCount v) all.

(** The variables of [runLocalMock] once the pipeline has reported
    [steps]: [if (vetoed) vetoCount = Math.max(vetoCount, 0)] comes last. *)
Definition mock_vars_after (vetoCount0 : Z) (steps : list step_call)
  : mock_vars :=
  let v := fold_left on_mock_step steps (MockVars false vetoCount0 ∅) in
  if vetoed v then MockVars true (Z.max (vetoCount v) 0) (allPayloads v)
  else v.

(* ------------------------------------------------------------------ *)
(** * Facts on binary64 arithmetic

    The operations on primitive floats are specified by the operations of
    [SpecFloat] on mantissas and exponents.  The facts below bound what
    these compute: rounding stays between any two numbers of the format
    that enclose the exact value. *)

Local Open Scope Z_scope.
Local Close Scope string_scope.

(** ** Powers of two and dyadic numbers *)

Lemma pow2_pos e : (0 < pow2 e)%Q.
Proof. unfold pow2. apply Qpower_0_lt. reflexivity. Qed.

Lemma pow2_add a b : (pow2 (a + b) == pow2 a * pow2 b)%Q.
Proof. unfold pow2. apply Qpower_plus. discriminate. Qed.

Lemma pow2_Z e : 0 <= e -> (pow2 e == inject_Z (2 ^ e))%Q.
Proof. intros H. unfold pow2. rewrite Zpower_Qpower by assumption. reflexivity. Qed.

Lemma pow2_le a b : a <= b -> (pow2 a <= pow2 b)%Q.
Proof.
  intros H. replace b with (a + (b - a)) by lia.
  rewrite pow2_add, (pow2_Z (b - a)) by lia.
  assert (1 <= 2 ^ (b - a)) by (apply (Z.pow_le_mono_r 2 0); lia).
  assert (1 <= inject_Z (2 ^ (b - a)))%Q by (rewrite (Zle_Qle 1) in H0; exact H0).
  pose proof (pow2_pos a). nra.
Qed.

Lemma pow2_lt_inv a b : (pow2 a < pow2 b)%Q -> a < b.
Proof.
  intros H. destruct (Z_lt_le_dec a b) as [|L]; [assumption|].
  apply pow2_le in L. lra.
Qed.

(** [a * 2^ea <= b * 2^eb], over the integers, for a common lower exponent. *)
Lemma dyadic_le a ea b eb c :
  c <= ea -> c <= eb ->
  (inject_Z a * pow2 ea <= inject_Z b * pow2 eb)%Q <->
  a * 2 ^ (ea - c) <= b * 2 ^ (eb - c).
Proof.
  intros Ha Hb.
  replace ea with (c + (ea - c)) at 1 by lia.
  replace eb with (c + (eb - c)) at 1 by lia.
  rewrite !pow2_add, (pow2_Z (ea - c)), (pow2_Z (eb - c)) by lia.
  rewrite Zle_Qle, !inject_Z_mult.
  pose proof (pow2_pos c).
  split; intros; nra.
Qed.

Lemma dyadic_lt a ea b eb c :
  c <= ea -> c <= eb ->
  (inject_Z a * pow2 ea < inject_Z b * pow2 eb)%Q <->
  a * 2 ^ (ea - c) < b * 2 ^ (eb - c).
Proof.
  intros Ha Hb.
  replace ea with (c + (ea - c)) at 1 by lia.
  replace eb with (c + (eb - c)) at 1 by lia.
  rewrite !pow2_add, (pow2_Z (ea - c)), (pow2_Z (eb - c)) by lia.
  rewrite Zlt_Qlt, !inject_Z_mult.
  pose proof (pow2_pos c).
  split; intros; nra.
Qed.

Lemma digits2_log2 m : Zpos (digits2_pos m) = Z.log2 (Zpos m) + 1.
Proof.
  induction m as [m IH|m IH|]; cbn [digits2_pos]; try reflexivity.
  - rewrite Pos2Z.inj_succ, IH. rewrite (Pos2Z.inj_xI m), Z.log2_succ_double by lia. lia.
  - rewrite Pos2Z.inj_succ, IH. rewrite (Pos2Z.inj_xO m), Z.log2_double by lia. lia.
Qed.

Lemma digits2_bounds m :
  2 ^ (Zpos (digits2_pos m) - 1) <= Zpos m < 2 ^ Zpos (digits2_pos m).
Proof.
  rewrite digits2_log2. replace (Z.log2 (Z.pos m) + 1 - 1) with (Z.log2 (Z.pos m)) by lia.
  replace (Z.log2 (Z.pos m) + 1) with (Z.succ (Z.log2 (Z.pos m))) by lia.
  apply Z.log2_spec. lia.
Qed.

Lemma shr_1_nonneg m r s :
  0 <= m ->
  shr_1 (Build_shr_record m r s) = Build_shr_record (m / 2) (Z.odd m) (r || s).
Proof.
  intros H. destruct m as [|p|p]; [reflexivity| |lia].
  destruct p as [p|p|]; cbn [shr_1]; f_equal.
  - rewrite Pos2Z.inj_xI. apply Z.div_unique with 1; lia.
  - rewrite Pos2Z.inj_xO. apply Z.div_unique with 0; lia.
Qed.

Lemma shifted_0 m0 : shifted m0 0 (Build_shr_record m0 false false).
Proof. split; cbn; [now rewrite Z.div_1_r | auto]. Qed.

Lemma shifted_1 m0 k x :
  0 <= m0 -> 0 <= k -> shifted m0 k x -> shifted m0 (k + 1) (shr_1 x).
Proof.
  intros Hm Hk [Hx Hr]. destruct x as [m r s]. cbn in Hx, Hr.
  assert (0 <= m) by (subst m; apply Z.div_pos; lia).
  assert (P : 0 < 2 ^ k) by lia.
  rewrite shr_1_nonneg by assumption. unfold shifted.
  rewrite Z.pow_add_r, Z.pow_1_r by lia.
  split; cbn.
  - subst m. rewrite Z.div_div by lia. reflexivity.
  - intros H0. rewrite Z.rem_mul_r in H0 by lia.
    pose proof (Z.mod_pos_bound m0 (2 ^ k) P).
    pose proof (Z.mod_pos_bound (m0 / 2 ^ k) 2 ltac:(lia)).
    assert (E1 : m0 mod 2 ^ k = 0) by nia.
    assert (E2 : m mod 2 = 0) by (subst m; nia).
    destruct (Hr E1) as [-> ->]. split; [|reflexivity].
    rewrite <- Z.negb_even. rewrite Zeven_mod, E2. reflexivity.
Qed.

Lemma shifted_iter m0 p : forall k x,
  0 <= m0 -> 0 <= k -> shifted m0 k x ->
  shifted m0 (k + Zpos p) (SpecFloat.iter_pos shr_1 p x).
Proof.
  induction p as [p IH|p IH|]; intros k x Hm Hk H; cbn [SpecFloat.iter_pos].
  - replace (k + Z.pos p~1) with (k + 1 + Zpos p + Zpos p) by lia.
    apply IH; [lia..|]. apply IH; [lia..|]. now apply shifted_1.
  - replace (k + Z.pos p~0) with (k + Zpos p + Zpos p) by lia.
    apply IH; [lia..|]. now apply IH.
  - now apply shifted_1.
Qed.

Lemma round_nearest_even_shifted m0 k x :
  shifted m0 k x ->
  let M := round_nearest_even (shr_m x) (loc_of_shr_record x) in
  m0 / 2 ^ k <= M <= m0 / 2 ^ k + 1 /\ (m0 mod 2 ^ k = 0 -> M = m0 / 2 ^ k).
Proof.
  intros [Hx Hr]. destruct x as [m r s]. cbn in *. subst m. split.
  - destruct r, s; cbn; try destruct (Z.even _); lia.
  - intros H0. destruct (Hr H0) as [-> ->]. reflexivity.
Qed.

Lemma fexp_eq z : fexp prec emax z = Z.max (z - 53) (-1074).
Proof. reflexivity. Qed.

Lemma digits_le_53 p : Zpos p < 2 ^ 53 -> Zpos (digits2_pos p) <= 53.
Proof.
  intros H. pose proof (digits2_bounds p) as [L _].
  assert (2 ^ (Zpos (digits2_pos p) - 1) < 2 ^ 53) by lia.
  apply Z.pow_lt_mono_r_iff in H0; lia.
Qed.

Lemma digits_ge p k : 0 <= k -> 2 ^ k <= Zpos p -> k < Zpos (digits2_pos p).
Proof.
  intros Hk H. pose proof (digits2_bounds p) as [_ U].
  assert (2 ^ k < 2 ^ Zpos (digits2_pos p)) by lia.
  apply Z.pow_lt_mono_r_iff in H0; lia.
Qed.

(** The second normalisation of [binary_round_aux]. *)
Lemma renormalize M g :
  0 <= M <= 2 ^ 53 -> -1074 <= g ->
  (M < 2 ^ 53 -> fexp prec emax (Zdigits2 M + g) <= g) ->
  (let '(mrs, e) := shr_fexp prec emax M g loc_Exact in
   match shr_m mrs with
   | Z0 => S754_zero false
   | Zpos m =>
       if Z.leb e (emax - prec) then S754_finite false m e
       else S754_infinity false
   | Zneg _ => S754_nan
   end) = finish M g.
Proof.
  intros HM Hg Hc. unfold shr_fexp.
  destruct (Z.eq_dec M (2 ^ 53)) as [->|Hne].
  - change (Zdigits2 (2 ^ 53)) with 54. rewrite fexp_eq.
    replace (Z.max (54 + g - 53) (-1074) - g) with 1 by lia.
    cbn [shr SpecFloat.iter_pos shr_record_of_loc]. unfold finish.
    change (2 ^ 53 =? 2 ^ 53) with true. cbn.
    replace (g + 1 <=? 971) with (g + 1 <=? emax - prec) by reflexivity.
    reflexivity.
  - assert (Hlt : M < 2 ^ 53) by lia. specialize (Hc Hlt).
    destruct (fexp prec emax (Zdigits2 M + g) - g) as [|n|n] eqn:En; try lia;
      cbn [shr shr_record_of_loc shr_m]; unfold finish;
      destruct M as [|p|p]; try reflexivity; try lia;
      rewrite (proj2 (Z.eqb_neq _ _) Hne); reflexivity.
Qed.

(** [binary_round_aux] on a positive mantissa that is known exactly: the
    mantissa is cut at the exponent [g], rounded to one of its two
    neighbours there, and packed. *)
Lemma round_aux_spec (m : positive) (e : Z) :
  let g := Z.max e (fexp prec emax (Zpos (digits2_pos m) + e)) in
  exists M,
    Zpos m / 2 ^ (g - e) <= M <= Zpos m / 2 ^ (g - e) + 1
    /\ (Zpos m mod 2 ^ (g - e) = 0 -> M = Zpos m / 2 ^ (g - e))
    /\ (e < g -> -1074 < g -> 2 ^ 52 <= M)
    /\ M <= 2 ^ 53
    /\ binary_round_aux prec emax false (Zpos m) e loc_Exact = finish M g.
Proof.
  intros g. pose proof (digits2_bounds m) as [DL DU].
  set (d := Zpos (digits2_pos m)) in *.
  assert (Hd : 0 < d) by (subst d; lia).
  assert (Eg : g = Z.max e (Z.max (d + e - 53) (-1074))) by reflexivity.
  clearbody g.
  unfold binary_round_aux, shr_fexp at 1.
  change (Zdigits2 (Zpos m)) with d. rewrite fexp_eq.
  destruct (Z.max (d + e - 53) (-1074) - e) as [|n|n] eqn:En.
  - (* the mantissa already sits at its exponent *)
    assert (g = e) by lia.
    exists (Zpos m). replace (g - e) with 0 by lia. rewrite Z.pow_0_r, Z.div_1_r.
    assert (d <= 53) by lia.
    assert (Zpos m < 2 ^ 53).
    { eapply Z.lt_le_trans; [exact DU|]. apply Z.pow_le_mono_r; lia. }
    repeat split; try lia.
    cbn [shr shr_record_of_loc shr_m loc_of_shr_record round_nearest_even].
    rewrite H. apply renormalize; try lia.
    intros _. change (Zdigits2 (Zpos m)) with d. rewrite fexp_eq. lia.
  - (* [n] bits are shifted out *)
    assert (Hg : g = e + Zpos n) by lia.
    cbn [shr].
    pose proof (shifted_iter (Zpos m) n 0 _ ltac:(lia) ltac:(lia) (shifted_0 (Zpos m))) as Sh.
    change (0 + Zpos n) with (Zpos n) in Sh.
    pose proof (round_nearest_even_shifted _ _ _ Sh) as [B X].
    set (M := round_nearest_even _ _) in *. clearbody M.
    replace (g - e) with (Zpos n) by lia.
    assert (P : 0 < 2 ^ Zpos n) by lia.
    assert (Q : Zpos m / 2 ^ Zpos n < 2 ^ (d - Zpos n) \/ d < Zpos n).
    { destruct (Z_lt_le_dec d (Zpos n)); [now right|left].
      apply Z.div_lt_upper_bound; [lia|].
      rewrite <- Z.pow_add_r by lia. replace (Zpos n + (d - Zpos n)) with d by lia. exact DU. }
    assert (Q0 : d < Zpos n -> Zpos m / 2 ^ Zpos n = 0).
    { intros L. apply Z.div_small. split; [lia|].
      eapply Z.lt_trans; [exact DU|]. apply Z.pow_lt_mono_r; lia. }
    assert (U : M <= 2 ^ 53 /\ (M < 2 ^ 53 -> fexp prec emax (Zdigits2 M + g) <= g)
                /\ (-1074 < g -> 2 ^ 52 <= M)).
    { rewrite fexp_eq.
      destruct (Z_lt_le_dec (d + e - 53) (-1074)) as [N|N]; cycle 1.
      - (* normal *)
        assert (Zpos n = d - 53) by lia.
        assert (2 ^ 52 <= Zpos m / 2 ^ Zpos n).
        { apply Z.div_le_lower_bound; [lia|].
          rewrite <- Z.pow_add_r by lia. replace (Zpos n + 52) with (d - 1) by lia. exact DL. }
        assert (Zpos m / 2 ^ Zpos n < 2 ^ 53).
        { destruct Q as [Q|Q]; [|lia]. replace (d - Zpos n) with 53 in Q by lia. exact Q. }
        clear Q Q0 X Sh. set (q := Zpos m / 2 ^ Zpos n) in *. clearbody q.
        split; [lia|]. split; [|lia]. intros L.
        destruct M as [|p|p]; try lia.
        change (Zdigits2 (Zpos p)) with (Zpos (digits2_pos p)).
        pose proof (digits_le_53 p L).
        pose proof (digits_ge p 52 ltac:(lia) ltac:(lia)).
        generalize dependent (Zpos (digits2_pos p)). intros; lia.
      - (* subnormal *)
        assert (g = -1074) by lia.
        assert (Zpos m / 2 ^ Zpos n < 2 ^ 52).
        { destruct Q as [Q|Q]; [|rewrite (Q0 Q); lia].
          eapply Z.lt_le_trans; [exact Q|]. apply Z.pow_le_mono_r; lia. }
        assert (0 <= Zpos m / 2 ^ Zpos n) by (apply Z.div_pos; lia).
        clear Q Q0 X Sh. set (q := Zpos m / 2 ^ Zpos n) in *. clearbody q.
        split; [lia|]. split; [|lia]. intros L.
        destruct M as [|p|p]; try (cbn [Zdigits2]; lia).
        change (Zdigits2 (Zpos p)) with (Zpos (digits2_pos p)).
        pose proof (digits_le_53 p L).
        generalize dependent (Zpos (digits2_pos p)). intros; lia. }
    destruct U as (U1 & U2 & U3).
    assert (0 <= Zpos m / 2 ^ Zpos n) by (apply Z.div_pos; lia).
    exists M. repeat split; try lia.
    replace (e + Zpos n) with g by lia. apply renormalize; lia.
  - (* the exponent is above the canonical one: nothing is shifted *)
    assert (g = e) by lia.
    exists (Zpos m). replace (g - e) with 0 by lia. rewrite Z.pow_0_r, Z.div_1_r.
    assert (d < 53) by lia.
    assert (Zpos m < 2 ^ 53).
    { eapply Z.lt_le_trans; [exact DU|]. apply Z.pow_le_mono_r; lia. }
    repeat split; try lia.
    cbn [shr shr_record_of_loc shr_m loc_of_shr_record round_nearest_even].
    rewrite H. apply renormalize; try lia.
    intros _. change (Zdigits2 (Zpos m)) with d. rewrite fexp_eq. lia.
Qed.

Lemma SF2Q_pos m e : SF2Q (S754_finite false m e) == dyadic (Zpos m) e.
Proof. unfold SF2Q, dyadic. ring. Qed.

Lemma bounded_spec m e :
  bounded prec emax m e = true ->
  e = Z.max (Zpos (digits2_pos m) + e - 53) (-1074) /\ e <= 971.
Proof.
  unfold bounded, canonical_mantissa. rewrite andb_true_iff, Z.eqb_eq, Z.leb_le, fexp_eq.
  intros [H1 H2]. split; [now symmetry|exact H2].
Qed.

Lemma bounded_mantissa m e :
  bounded prec emax m e = true -> Zpos m < 2 ^ 53.
Proof.
  intros H. apply bounded_spec in H as [H _].
  pose proof (digits2_bounds m) as [_ U].
  eapply Z.lt_le_trans; [exact U|]. apply Z.pow_le_mono_r; lia.
Qed.

(** A number of greater value has a greater order of magnitude. *)
Lemma magnitude_le m e m' e' :
  (dyadic (Zpos m) e <= dyadic (Zpos m') e')%Q ->
  Zpos (digits2_pos m) + e <= Zpos (digits2_pos m') + e'.
Proof.
  intros H. pose proof (digits2_bounds m) as [L _].
  pose proof (digits2_bounds m') as [_ U].
  set (d := Zpos (digits2_pos m)) in *. set (d' := Zpos (digits2_pos m')) in *.
  assert (0 < d) by (subst d; lia). assert (0 < d') by (subst d'; lia).
  clearbody d d'.
  assert (pow2 (d - 1 + e) < pow2 (d' + e'))%Q.
  { rewrite !pow2_add, (pow2_Z (d - 1)), (pow2_Z d') by lia.
    apply Qle_lt_trans with (dyadic (Zpos m) e).
    - unfold dyadic. apply Qmult_le_compat_r; [|apply Qlt_le_weak, pow2_pos].
      rewrite <- Zle_Qle. exact L.
    - eapply Qle_lt_trans; [exact H|]. unfold dyadic.
      apply Qmult_lt_compat_r; [apply pow2_pos|]. rewrite <- Zlt_Qlt. exact U. }
  apply pow2_lt_inv in H2. lia.
Qed.

Lemma finish_value M g :
  0 <= M <= 2 ^ 53 ->
  match finish M g with
  | S754_zero false => M = 0
  | S754_finite false p ef =>
      0 < M /\ (dyadic (Zpos p) ef == dyadic M g)%Q
  | S754_infinity false => 0 < M /\ (971 < g \/ M = 2 ^ 53 /\ 970 < g)
  | _ => False
  end.
Proof.
  intros H. unfold finish. destruct M as [|p|p]; [reflexivity| |lia].
  destruct (Z.eqb_spec (Zpos p) (2 ^ 53)) as [E|E].
  - destruct (Z.leb_spec (g + 1) 971).
    + split; [lia|]. rewrite E. unfold dyadic.
      rewrite pow2_add. change (pow2 1) with 2%Q.
      change (inject_Z (Zpos (Z.to_pos (2 ^ 52)))) with (inject_Z (2 ^ 52)).
      change (2 ^ 53) with (2 ^ 52 * 2). rewrite inject_Z_mult. change (inject_Z 2) with 2%Q. ring.
    + split; [lia|]. right. split; [assumption|lia].
  - destruct (Z.leb_spec g 971).
    + split; [lia|]. reflexivity.
    + split; [lia|]. left. lia.
Qed.

Lemma dyadic_nonneg M g : 0 <= M -> (0 <= dyadic M g)%Q.
Proof.
  intros H. unfold dyadic. apply Qmult_le_0_compat.
  - now rewrite (Zle_Qle 0) in H.
  - apply Qlt_le_weak, pow2_pos.
Qed.

Lemma rnd_nonneg m e : sf_ge 0 (rnd m e).
Proof.
  destruct (round_aux_spec m e) as (M & B & _ & _ & U & R).
  unfold rnd. rewrite R. clear R.
  assert (0 <= M).
  { assert (0 <= Zpos m / 2 ^ (Z.max e (fexp prec emax (Zpos (digits2_pos m) + e)) - e)).
    { apply Z.div_pos; [lia|]. apply Z.pow_pos_nonneg; lia. }
    lia. }
  pose proof (finish_value M (Z.max e (fexp prec emax (Zpos (digits2_pos m) + e))) ltac:(lia)) as V.
  destruct (finish M _) as [[]|[]| |[] p ef]; cbn [sf_ge];
    try exact I; try contradiction.
  - cbn [SF2Q]. lra.
  - destruct V as [_ V]. rewrite SF2Q_pos, V. apply dyadic_nonneg; assumption.
Qed.

(** Rounding does not go above a number of the format that the exact value
    does not exceed. *)
Lemma rnd_le m e mh eh :
  bounded prec emax mh eh = true ->
  e <= 971 ->
  (dyadic (Zpos m) e <= dyadic (Zpos mh) eh)%Q ->
  sf_le (rnd m e) (dyadic (Zpos mh) eh).
Proof.
  intros Hb He Hv.
  pose proof (magnitude_le _ _ _ _ Hv) as Hmag.
  pose proof (bounded_mantissa _ _ Hb) as Hmh.
  apply bounded_spec in Hb as [Hc Hmax].
  destruct (round_aux_spec m e) as (M & B & X & _ & U & R).
  unfold rnd. rewrite R. clear R. rewrite fexp_eq in *.
  set (d := Zpos (digits2_pos m)) in *. set (dh := Zpos (digits2_pos mh)) in *.
  assert (0 < d) by (subst d; lia). assert (0 < dh) by (subst dh; lia).
  pose proof (digits2_bounds m) as [_ DU]. fold d in DU.
  clearbody d dh.
  set (g := Z.max e (Z.max (d + e - 53) (-1074))) in *.
  assert (Hge : e <= g) by lia.
  assert (P : 0 < 2 ^ (g - e)) by (apply Z.pow_pos_nonneg; lia).
  (* the rounded mantissa stays below the bound, read at the exponent [g] *)
  assert (Hle : (dyadic M g <= dyadic (Zpos mh) eh)%Q
                /\ 0 <= M /\ (M = 2 ^ 53 -> g < eh) /\ (0 < M -> g <= 971)).
  { destruct (Z.eq_dec g e) as [Eg|Eg].
    - rewrite Eg in *. replace (e - e) with 0 in * by lia.
      rewrite Z.pow_0_r, Z.div_1_r in *. rewrite Z.mod_1_r in X.
      rewrite (X eq_refl). split; [exact Hv|]. split; [lia|]. split; [|lia].
      intros E2. assert (53 < d).
      { assert (2 ^ 53 < 2 ^ d) by lia. apply Z.pow_lt_mono_r_iff in H1; lia. }
      lia.
    - assert (Hg : g <= eh) by lia.
      apply (dyadic_le _ _ _ _ e) in Hv; [|lia..].
      replace (e - e) with 0 in Hv by lia. rewrite Z.pow_0_r, Z.mul_1_r in Hv.
      replace (eh - e) with ((eh - g) + (g - e)) in Hv by lia.
      rewrite Z.pow_add_r in Hv by lia.
      set (K := Zpos mh * 2 ^ (eh - g)).
      assert (HK : Zpos m <= K * 2 ^ (g - e)) by (subst K; lia).
      assert (Pk : 0 < 2 ^ (eh - g)) by (apply Z.pow_pos_nonneg; lia).
      assert (Hq : Zpos m / 2 ^ (g - e) <= K).
      { apply Z.div_le_upper_bound; lia. }
      assert (0 <= Zpos m / 2 ^ (g - e)) by (apply Z.div_pos; lia).
      assert (HM : M <= K).
      { destruct (Z.eq_dec (Zpos m / 2 ^ (g - e)) K) as [E|E]; [|lia].
        assert (Zpos m = K * 2 ^ (g - e)).
        { pose proof (Z.mul_div_le (Zpos m) (2 ^ (g - e)) P). rewrite E in H2. lia. }
        rewrite X; [lia|]. rewrite H2. apply Z.mod_mul. lia. }
      split; [|split; [lia|split; [|lia]]].
      + apply (dyadic_le _ _ _ _ g); [lia..|].
        replace (g - g) with 0 by lia. rewrite Z.pow_0_r, Z.mul_1_r. exact HM.
      + intros E2. destruct (Z.eq_dec eh g) as [E3|E3]; [|lia].
        assert (K = Zpos mh) by (subst K; rewrite E3, Z.sub_diag, Z.pow_0_r; lia).
        lia. }
  destruct Hle as (Hle & M0 & M53 & Mg).
  pose proof (finish_value M g (conj M0 U)) as V.
  destruct (finish M g) as [[]|[]| |[] p ef]; cbn [sf_le]; try contradiction.
  - cbn [SF2Q]. apply dyadic_nonneg. lia.
  - clear - V M53 Mg Hmax. lia.
  - destruct V as [_ V]. rewrite SF2Q_pos, V. exact Hle.
Qed.

(** Rounding does not go below a number of the format that the exact value
    reaches. *)
Lemma rnd_ge m e ml el :
  bounded prec emax ml el = true ->
  (dyadic (Zpos ml) el <= dyadic (Zpos m) e)%Q ->
  sf_ge (dyadic (Zpos ml) el) (rnd m e).
Proof.
  intros Hb Hv.
  pose proof (bounded_mantissa _ _ Hb) as Hml.
  apply bounded_spec in Hb as [Hc Hmax].
  destruct (round_aux_spec m e) as (M & B & X & N & U & R).
  unfold rnd. rewrite R. clear R. rewrite fexp_eq in *.
  set (d := Zpos (digits2_pos m)) in *. set (dl := Zpos (digits2_pos ml)) in *.
  clearbody d dl.
  set (g := Z.max e (Z.max (d + e - 53) (-1074))) in *.
  assert (Hge : e <= g) by lia.
  assert (P : 0 < 2 ^ (g - e)) by (apply Z.pow_pos_nonneg; lia).
  assert (Hle : (dyadic (Zpos ml) el <= dyadic M g)%Q /\ 0 < M).
  { destruct (Z.eq_dec g e) as [Eg|Eg].
    - rewrite Eg in *. replace (e - e) with 0 in * by lia.
      rewrite Z.pow_0_r, Z.div_1_r in *. rewrite Z.mod_1_r in X.
      rewrite (X eq_refl). split; [exact Hv|lia].
    - destruct (Z_le_gt_dec g el) as [G|G].
      + apply (dyadic_le _ _ _ _ e) in Hv; [|lia..].
        replace (e - e) with 0 in Hv by lia. rewrite Z.pow_0_r, Z.mul_1_r in Hv.
        replace (el - e) with ((el - g) + (g - e)) in Hv by lia.
        rewrite Z.pow_add_r in Hv by lia.
        set (L := Zpos ml * 2 ^ (el - g)).
        assert (Pl : 0 < 2 ^ (el - g)) by (apply Z.pow_pos_nonneg; lia).
        assert (HL : L <= Zpos m / 2 ^ (g - e)).
        { apply Z.div_le_lower_bound; subst L; lia. }
        assert (0 < L) by (subst L; lia).
        split; [|lia].
        apply (dyadic_le _ _ _ _ g); [lia..|].
        replace (g - g) with 0 by lia. rewrite Z.pow_0_r, Z.mul_1_r. fold L. lia.
      + assert (2 ^ 52 <= M) by (apply N; lia).
        split; [|lia].
        apply (dyadic_le _ _ _ _ el); [lia..|].
        replace (el - el) with 0 by lia. rewrite Z.pow_0_r, Z.mul_1_r.
        assert (2 <= 2 ^ (g - el)).
        { change 2 with (2 ^ 1) at 1. apply Z.pow_le_mono_r; lia. }
        nia. }
  destruct Hle as (Hle & M0).
  pose proof (finish_value M g (conj (Z.lt_le_incl _ _ M0) U)) as V.
  destruct (finish M g) as [[]|[]| |[] p ef]; cbn [sf_ge];
    try contradiction; try exact I.
  - lia.
  - destruct V as [_ V]. rewrite SF2Q_pos, V. exact Hle.
Qed.

(** ** Comparison *)

Lemma dyadic_lt_exponent m1 e1 m2 e2 :
  bounded prec emax m1 e1 = true -> bounded prec emax m2 e2 = true ->
  e1 < e2 -> (dyadic (Zpos m1) e1 < dyadic (Zpos m2) e2)%Q.
Proof.
  intros B1 B2 L.
  pose proof (bounded_mantissa _ _ B1) as U1.
  apply bounded_spec in B1 as [C1 _]. apply bounded_spec in B2 as [C2 _].
  pose proof (digits2_bounds m2) as [L2 _].
  set (d2 := Zpos (digits2_pos m2)) in *. clearbody d2.
  assert (d2 = 53) by lia. subst d2. change (53 - 1) with 52 in L2.
  apply (dyadic_lt _ _ _ _ e1); [lia..|].
  replace (e1 - e1) with 0 by lia. rewrite Z.pow_0_r, Z.mul_1_r.
  assert (2 <= 2 ^ (e2 - e1)).
  { change 2 with (2 ^ 1) at 1. apply Z.pow_le_mono_r; lia. }
  nia.
Qed.

Lemma dyadic_compare_mantissa m1 m2 e :
  (dyadic (Zpos m1) e ?= dyadic (Zpos m2) e)%Q = (m1 ?= m2)%positive.
Proof.
  pose proof (pow2_pos e) as P.
  destruct (Pos.compare_spec m1 m2) as [E|E|E].
  - apply Qeq_alt. subst. reflexivity.
  - apply Qlt_alt. unfold dyadic. apply Qmult_lt_compat_r; [exact P|].
    rewrite <- Zlt_Qlt. lia.
  - apply Qgt_alt. unfold dyadic. apply Qmult_lt_compat_r; [exact P|].
    rewrite <- Zlt_Qlt. lia.
Qed.

(** On numbers of the format, the comparison of the specification is the
    comparison of the values. *)
Lemma SFcompare_pos m1 e1 m2 e2 :
  bounded prec emax m1 e1 = true -> bounded prec emax m2 e2 = true ->
  SFcompare (S754_finite false m1 e1) (S754_finite false m2 e2)
  = Some (dyadic (Zpos m1) e1 ?= dyadic (Zpos m2) e2)%Q.
Proof.
  intros B1 B2. cbn [SFcompare]. f_equal.
  destruct (Z.compare_spec e1 e2) as [E|E|E].
  - subst. rewrite dyadic_compare_mantissa. reflexivity.
  - symmetry. apply Qlt_alt. now apply dyadic_lt_exponent.
  - symmetry. apply Qgt_alt. now apply dyadic_lt_exponent.
Qed.

(** ** Multiplication and addition of positive numbers *)

Lemma dyadic_mul m1 e1 m2 e2 :
  (dyadic (Zpos (m1 * m2)) (e1 + e2) == dyadic (Zpos m1) e1 * dyadic (Zpos m2) e2)%Q.
Proof.
  unfold dyadic. rewrite pow2_add, Pos2Z.inj_mul, inject_Z_mult. ring.
Qed.

Lemma SFmul_pos m1 e1 m2 e2 :
  SFmul prec emax (S754_finite false m1 e1) (S754_finite false m2 e2)
  = rnd (m1 * m2) (e1 + e2).
Proof. reflexivity. Qed.

Lemma iter_xO m d : Zpos (Pos.iter xO m d) = Zpos m * 2 ^ Zpos d.
Proof.
  revert m. induction d as [|d IH] using Pos.peano_ind; intros m.
  - cbn. lia.
  - rewrite Pos.iter_succ, Pos2Z.inj_xO, IH, Pos2Z.inj_succ, Z.pow_succ_r by lia. lia.
Qed.

Lemma shl_align_spec m e e' :
  let '(mz, ez) := shl_align m e e' in
  ez = Z.min e e' /\ Zpos mz = Zpos m * 2 ^ (e - ez).
Proof.
  unfold shl_align. destruct (e' - e) as [|d|d] eqn:E.
  - split; [lia|]. rewrite Z.sub_diag. lia.
  - split; [lia|]. rewrite Z.sub_diag. lia.
  - split; [lia|]. rewrite iter_xO. f_equal. f_equal. lia.
Qed.

Lemma shl_align_value m e e' :
  (dyadic (Zpos (fst (shl_align m e e'))) (snd (shl_align m e e')) == dyadic (Zpos m) e)%Q.
Proof.
  pose proof (shl_align_spec m e e') as H.
  destruct (shl_align m e e') as [mz ez]. destruct H as [H1 H2]. cbn [fst snd].
  unfold dyadic. rewrite H2, inject_Z_mult.
  replace e with (ez + (e - ez)) at 2 by lia.
  rewrite pow2_add, (pow2_Z (e - ez)) by lia. ring.
Qed.

(** [binary_round]: the mantissa is first brought down to its exponent. *)
Lemma binary_round_le m e mh eh :
  bounded prec emax mh eh = true -> e <= 971 ->
  (dyadic (Zpos m) e <= dyadic (Zpos mh) eh)%Q ->
  sf_le (binary_round prec emax false m e) (dyadic (Zpos mh) eh).
Proof.
  intros B E V. unfold binary_round.
  pose proof (shl_align_value m e (fexp prec emax (Zpos (digits2_pos m) + e))) as Hv.
  pose proof (shl_align_spec m e (fexp prec emax (Zpos (digits2_pos m) + e))) as Hs.
  destruct (shl_align _ _ _) as [mz ez]. cbn [fst snd] in Hv. destruct Hs as [Hs _].
  apply rnd_le; [exact B|lia|]. rewrite Hv. exact V.
Qed.

Lemma binary_round_ge m e ml el :
  bounded prec emax ml el = true ->
  (dyadic (Zpos ml) el <= dyadic (Zpos m) e)%Q ->
  sf_ge (dyadic (Zpos ml) el) (binary_round prec emax false m e).
Proof.
  intros B V. unfold binary_round.
  pose proof (shl_align_value m e (fexp prec emax (Zpos (digits2_pos m) + e))) as Hv.
  destruct (shl_align _ _ _) as [mz ez]. cbn [fst snd] in Hv.
  apply rnd_ge; [exact B|]. rewrite Hv. exact V.
Qed.

Lemma SFadd_pos m1 e1 m2 e2 :
  exists m,
    SFadd prec emax (S754_finite false m1 e1) (S754_finite false m2 e2)
    = binary_round prec emax false m (Z.min e1 e2)
    /\ (dyadic (Zpos m) (Z.min e1 e2) == dyadic (Zpos m1) e1 + dyadic (Zpos m2) e2)%Q.
Proof.
  cbn [SFadd cond_Zopp].
  pose proof (shl_align_value m1 e1 (Z.min e1 e2)) as V1.
  pose proof (shl_align_value m2 e2 (Z.min e1 e2)) as V2.
  pose proof (shl_align_spec m1 e1 (Z.min e1 e2)) as S1.
  pose proof (shl_align_spec m2 e2 (Z.min e1 e2)) as S2.
  destruct (shl_align m1 e1 _) as [a ea]. destruct (shl_align m2 e2 _) as [b eb].
  cbn [fst snd] in *. destruct S1 as [S1 _]. destruct S2 as [S2 _].
  exists (a + b)%positive. split; [reflexivity|].
  rewrite <- V1, <- V2. replace ea with (Z.min e1 e2) by lia.
  replace eb with (Z.min e1 e2) by lia.
  unfold dyadic. rewrite Pos2Z.inj_add, inject_Z_plus. ring.
Qed.

(** ** Primitive floats *)

Lemma valid_finite x s m e :
  Prim2SF x = S754_finite s m e -> bounded prec emax m e = true.
Proof.
  intros H. pose proof (Prim2SF_valid x) as V. now rewrite H in V.
Qed.

Lemma SF2Q_neg m e : (SF2Q (S754_finite true m e) < 0)%Q.
Proof.
  unfold SF2Q. pose proof (pow2_pos e).
  assert (0 < inject_Z (Zpos m))%Q
    by (change 0%Q with (inject_Z 0); rewrite <- Zlt_Qlt; lia).
  nra.
Qed.

(** A number that is not negative is a zero, a positive number of the
    format, or [+Infinity]. *)
Lemma sf_ge_0_cases x :
  sf_ge 0 x ->
  (exists s, x = S754_zero s)
  \/ (exists m e, x = S754_finite false m e)
  \/ x = S754_infinity false.
Proof.
  destruct x as [s|[]| |[] m e]; cbn [sf_ge]; intros H; try contradiction; eauto.
  pose proof (SF2Q_neg m e). lra.
Qed.

Lemma leb_0_nonneg x : (0 <=? x)%float = true -> nonneg x.
Proof.
  rewrite FloatAxioms.leb_spec. unfold nonneg. change (Prim2SF 0) with (S754_zero false).
  destruct (Prim2SF x) as [s|[]| |[] m e]; cbn [SFleb SFcompare sf_ge];
    try discriminate; intros _; try exact I.
  rewrite SF2Q_pos. apply dyadic_nonneg. lia.
Qed.

Lemma sf_le_eq x q q' : (q == q')%Q -> sf_le x q -> sf_le x q'.
Proof. intros E. destruct x; cbn [sf_le]; try easy; now rewrite E. Qed.

Lemma sf_ge_eq x q q' : (q == q')%Q -> sf_ge q x -> sf_ge q' x.
Proof. intros E. destruct x as [|[]| |]; cbn [sf_ge]; try easy; now rewrite E. Qed.

Lemma finite_in_eq x lo lo' hi hi' :
  (lo == lo')%Q -> (hi == hi')%Q -> finite_in lo hi x -> finite_in lo' hi' x.
Proof.
  intros E1 E2 [G L]. split; [eapply sf_ge_eq|eapply sf_le_eq]; eassumption.
Qed.

Lemma positive_finite_spec c :
  positive_finite c = true ->
  exists m e, Prim2SF c = S754_finite false m e /\ bounded prec emax m e = true
              /\ (exact c == dyadic (Zpos m) e)%Q /\ exponent c = e.
Proof.
  unfold positive_finite, exact, exponent.
  destruct (Prim2SF c) as [s|s| |[] m e] eqn:E; try discriminate. intros _.
  exists m, e. split; [reflexivity|]. split; [exact (valid_finite _ _ _ _ E)|].
  split; [apply SF2Q_pos|reflexivity].
Qed.

Lemma exact_positive c : positive_finite c = true -> (0 <= exact c)%Q.
Proof.
  intros H. apply positive_finite_spec in H as (m & e & _ & _ & -> & _).
  apply dyadic_nonneg. lia.
Qed.

(** The product of a number that is not negative by a positive constant is
    not negative. *)
Lemma mul_nonneg x c :
  nonneg x -> positive_finite c = true -> nonneg (x * c)%float.
Proof.
  unfold nonneg. intros Hx Hc.
  apply positive_finite_spec in Hc as (mc & ec & Ec & _).
  rewrite FloatAxioms.mul_spec, Ec. unfold SF64mul.
  destruct (sf_ge_0_cases _ Hx) as [[s ->]|[(m & e & ->)| ->]].
  - cbn [SFmul sf_ge SF2Q]. apply Qle_refl.
  - rewrite SFmul_pos. apply rnd_nonneg.
  - exact I.
Qed.

(** The product of a number of [[0, hi]] by a positive constant [c] stays
    at or below any number [h] of the format that [hi * c] does not exceed. *)
Lemma mul_const x c h hi :
  positive_finite c = true -> exponent c <= 0 -> positive_finite h = true ->
  finite_in 0 hi x ->
  (hi * exact c <= exact h)%Q ->
  finite_in 0 (exact h) (x * c)%float.
Proof.
  intros Hc Hec Hh [G L] Hq.
  apply positive_finite_spec in Hc as (mc & ec & Ec & Bc & Vc & Xc).
  apply positive_finite_spec in Hh as (mh & eh & Eh & Bh & Vh & _).
  rewrite Vc, Vh in Hq. subst ec.
  apply (finite_in_eq _ 0 0 (dyadic (Zpos mh) eh));
    [reflexivity|now symmetry|].
  unfold finite_in. rewrite FloatAxioms.mul_spec, Ec. unfold SF64mul.
  destruct (Prim2SF x) as [s|s| |[] m e] eqn:Ex; cbn [sf_ge sf_le] in *;
    try contradiction.
  - cbn [SFmul sf_ge sf_le SF2Q]. split; [apply Qle_refl|apply dyadic_nonneg; lia].
  - pose proof (SF2Q_neg m e). lra.
  - rewrite SFmul_pos. split; [apply rnd_nonneg|].
    pose proof (valid_finite _ _ _ _ Ex) as Bx. apply bounded_spec in Bx as [_ Bx].
    apply rnd_le; [exact Bh|lia|].
    rewrite dyadic_mul. rewrite SF2Q_pos in L.
    pose proof (dyadic_nonneg (Zpos mc) (exponent c) ltac:(lia)).
    eapply Qle_trans; [|exact Hq]. apply Qmult_le_compat_r; assumption.
Qed.

(** The sum of a positive constant [c] and a number of [[lo, hi]], with
    [0 <= lo], lies between any two numbers [l] and [h] of the format that
    enclose [c + lo] and [c + hi]. *)
Lemma add_const c y l h lo hi :
  positive_finite c = true -> positive_finite l = true ->
  positive_finite h = true ->
  finite_in lo hi y -> (0 <= lo)%Q ->
  (exact l <= exact c + lo)%Q -> (exact c + hi <= exact h)%Q ->
  finite_in (exact l) (exact h) (c + y)%float.
Proof.
  intros Hc Hl Hh [G L] H0 Hlo Hhi.
  apply positive_finite_spec in Hc as (mc & ec & Ec & Bc & Vc & _).
  apply positive_finite_spec in Hl as (ml & el & El & Bl & Vl & _).
  apply positive_finite_spec in Hh as (mh & eh & Eh & Bh & Vh & _).
  rewrite Vc, Vl in Hlo. rewrite Vc, Vh in Hhi.
  apply (finite_in_eq _ (dyadic (Zpos ml) el) _ (dyadic (Zpos mh) eh));
    [now symmetry|now symmetry|].
  unfold finite_in. rewrite FloatAxioms.add_spec, Ec. unfold SF64add.
  destruct (Prim2SF y) as [s|s| |[] m e] eqn:Ey; cbn [sf_ge sf_le] in *;
    try contradiction.
  - cbn [SFadd sf_ge sf_le]. cbn [SF2Q] in G, L. rewrite SF2Q_pos. split; lra.
  - pose proof (SF2Q_neg m e). lra.
  - rewrite SF2Q_pos in G, L.
    destruct (SFadd_pos mc ec m e) as (ms & -> & Vs).
    apply bounded_spec in Bc as [_ Bc].
    split.
    + apply binary_round_ge; [exact Bl|]. rewrite Vs. lra.
    + apply binary_round_le; [exact Bh|lia|]. rewrite Vs. lra.
Qed.

Lemma SFcompare_refl_pos m e :
  SFcompare (S754_finite false m e) (S754_finite false m e) = Some Eq.
Proof. cbn [SFcompare]. now rewrite Z.compare_refl, Pos.compare_cont_refl. Qed.

Lemma nonneg_not_nan x : nonneg x -> is_nan x = false.
Proof.
  unfold nonneg, is_nan. rewrite FloatAxioms.eqb_spec. intros H.
  destruct (sf_ge_0_cases _ H) as [[s ->]|[(m & e & ->)| ->]]; unfold SFeqb.
  - reflexivity.
  - now rewrite SFcompare_refl_pos.
  - reflexivity.
Qed.

Lemma positive_finite_nonneg c : positive_finite c = true -> nonneg c.
Proof.
  intros H. apply positive_finite_spec in H as (m & e & E & _).
  unfold nonneg. rewrite E. cbn [sf_ge]. rewrite SF2Q_pos.
  apply dyadic_nonneg. lia.
Qed.

Lemma positive_finite_in c :
  positive_finite c = true -> finite_in 0 (exact c) c.
Proof.
  intros H. split; [now apply positive_finite_nonneg|].
  apply positive_finite_spec in H as (m & e & E & _).
  unfold exact. rewrite E. cbn [sf_le]. apply Qle_refl.
Qed.

(** A number that is not negative and is below a positive constant. *)
Lemma ltb_const x c :
  nonneg x -> positive_finite c = true -> (x <? c)%float = true ->
  finite_in 0 (exact c) x.
Proof.
  unfold nonneg. intros Hx Hc. rewrite FloatAxioms.ltb_spec. unfold finite_in.
  pose proof (exact_positive c Hc) as P0.
  apply positive_finite_spec in Hc as (mc & ec & Ec & Bc & Vc & _).
  rewrite Ec.
  destruct (Prim2SF x) as [s|s| |[] m e] eqn:Ex; cbn [sf_ge sf_le] in *;
    try contradiction.
  - intros _. cbn [SF2Q]. split; [apply Qle_refl|exact P0].
  - destruct s; [contradiction|]. discriminate.
  - pose proof (SF2Q_neg m e). lra.
  - unfold SFltb. rewrite (SFcompare_pos _ _ _ _ (valid_finite _ _ _ _ Ex) Bc).
    destruct (Qcompare_spec (dyadic (Zpos m) e) (dyadic (Zpos mc) ec)) as [E|E|E];
      try discriminate.
    intros _. split; [exact Hx|]. rewrite SF2Q_pos, Vc. lra.
Qed.

(** [Math.min(a, c)] of a number that is not negative and a positive
    constant. *)
Lemma Math_min_const a c :
  nonneg a -> positive_finite c = true ->
  finite_in 0 (exact c) (Js.Math_min a c).
Proof.
  intros Ha Hc. unfold Js.Math_min.
  rewrite (nonneg_not_nan a Ha), (nonneg_not_nan c (positive_finite_nonneg c Hc)).
  cbn [orb].
  destruct (a <? c)%float eqn:L1; [now apply ltb_const|].
  destruct (c <? a)%float eqn:L2; [now apply positive_finite_in|].
  destruct (Js.is_neg_zero a) eqn:Z; [|now apply positive_finite_in].
  unfold Js.is_neg_zero in Z. unfold finite_in.
  destruct (Prim2SF a) as [[]|s| |s m e]; try discriminate.
  cbn [sf_ge sf_le SF2Q]. split; [apply Qle_refl|now apply exact_positive].
Qed.

Lemma Prim2SF_inj a b : Prim2SF a = Prim2SF b -> a = b.
Proof.
  intros H. rewrite <- (SF2Prim_Prim2SF a), <- (SF2Prim_Prim2SF b). now rewrite H.
Qed.

Lemma is_nan_spec a : is_nan a = true -> a = nan.
Proof.
  unfold is_nan. rewrite FloatAxioms.eqb_spec. intros H. apply Prim2SF_inj.
  change (Prim2SF nan) with S754_nan. unfold SFeqb in H.
  destruct (Prim2SF a) as [s|[]| |[] m e]; try reflexivity; try discriminate H;
    cbn [SFcompare] in H;
    rewrite Z.compare_refl, Pos.compare_cont_refl in H; discriminate H.
Qed.

(** [Math.min(a, c)] is [a] when [a > c] does not hold, for a positive
    constant [c]: also when [a] is NaN. *)
Lemma Math_min_within a c :
  positive_finite c = true -> Js.gt a c = false -> Js.Math_min a c = a.
Proof.
  intros Hc G. unfold Js.gt in G. unfold Js.Math_min.
  destruct (is_nan a) eqn:Na; [symmetry; now apply is_nan_spec|].
  rewrite (nonneg_not_nan c (positive_finite_nonneg c Hc)). cbn [orb].
  destruct (a <? c)%float eqn:L; [reflexivity|]. rewrite G.
  destruct (Js.is_neg_zero a); [reflexivity|].
  symmetry. apply Prim2SF_inj.
  unfold is_nan in Na. rewrite FloatAxioms.eqb_spec in Na.
  rewrite FloatAxioms.ltb_spec in L, G.
  apply positive_finite_spec in Hc as (mc & ec & Ec & _).
  rewrite Ec in *. unfold SFltb, SFeqb in *.
  destruct (Prim2SF a) as [s|[]| |[] m e]; try discriminate.
  cbn [SFcompare] in L, G. rewrite (Z.compare_antisym e ec) in G.
  destruct (Z.compare_spec e ec) as [E|E|E]; cbn [CompOpp] in G;
    try discriminate.
  subst ec.
  change (Pos.compare_cont Eq m mc) with (Pos.compare m mc) in L.
  change (Pos.compare_cont Eq mc m) with (Pos.compare mc m) in G.
  rewrite (Pos.compare_antisym m mc) in G.
  destruct (Pos.compare_spec m mc) as [E|E|E]; cbn [CompOpp] in G;
    try discriminate.
  now subst.
Qed.

(** A draw of [Math.random()]: at least 0 and below 1. *)
Lemma unit_interval r :
  (0 <=? r)%float = true -> (r <? 1)%float = true -> finite_in 0 1 r.
Proof.
  intros H0 H1. apply leb_0_nonneg in H0.
  apply (finite_in_eq _ 0 0 (exact 1)); [reflexivity|reflexivity|].
  now apply ltb_const.
Qed.

(** ** [toFixed] and [parseFloat] *)

Lemma toFixed_digits_le f q q' :
  (q <= q')%Q -> Js.toFixed_digits f q <= Js.toFixed_digits f q'.
Proof.
  intros H. unfold Js.toFixed_digits. apply Qfloor_resp_le.
  assert (0 <= inject_Z (10 ^ f))%Q.
  { change 0%Q with (inject_Z 0). rewrite <- Zle_Qle. apply Z.pow_nonneg. lia. }
  nra.
Qed.

Lemma toFixed_digits_eq f q q' :
  (q == q')%Q -> Js.toFixed_digits f q = Js.toFixed_digits f q'.
Proof.
  intros E. apply Z.le_antisymm; apply toFixed_digits_le; rewrite E; apply Qle_refl.
Qed.

(** [x.toFixed(f)] for a finite [x] that is not negative and is below
    10^21: a decimal numeral without sign, whose digits are bounded by
    those of the bounds of [x]. *)
Lemma toFixed_finite_in x f lo hi :
  finite_in lo hi x -> (0 <= lo)%Q -> (hi < exact 1e21)%Q ->
  exists n,
    Js.toFixed x f = Js.NumDecimal false n f
    /\ Js.toFixed_digits f lo <= n <= Js.toFixed_digits f hi.
Proof.
  intros [G L] H0 H21. unfold Js.toFixed.
  destruct (Prim2SF x) as [s|s| |[] m e] eqn:Ex; cbn [sf_ge sf_le] in *;
    try contradiction.
  - cbn [SF2Q] in G, L. exists 0. split; [reflexivity|].
    assert (Z0 : Js.toFixed_digits f 0 = 0).
    { unfold Js.toFixed_digits. now rewrite Qmult_0_l. }
    split; rewrite <- Z0; now apply toFixed_digits_le.
  - pose proof (SF2Q_neg m e). lra.
  - assert (Hbig : (1e21 <=? abs x)%float = false).
    { rewrite FloatAxioms.leb_spec, abs_spec, Ex. cbn [SFabs].
      destruct (positive_finite_spec 1e21 eq_refl) as (mb & eb & -> & Bb & Vb & _).
      unfold SFleb. rewrite (SFcompare_pos _ _ _ _ Bb (valid_finite _ _ _ _ Ex)).
      rewrite SF2Q_pos in L. rewrite Vb in H21.
      destruct (Qcompare_spec (dyadic (Zpos mb) eb) (dyadic (Zpos m) e)) as [E|E|E];
        try reflexivity; lra. }
    rewrite Hbig. eexists. split; [reflexivity|].
    unfold exact. rewrite Ex.
    rewrite (toFixed_digits_eq f _ _ (Qabs_pos _ (Qle_trans _ _ _ H0 G))).
    split; now apply toFixed_digits_le.
Qed.

Lemma Z_range_forallb (P : Z -> bool) a b :
  forallb P (Z_range a b) = true -> forall n, a <= n <= b -> P n = true.
Proof.
  unfold Z_range. rewrite forallb_forall. intros H n Hn. apply H.
  apply in_map_iff. exists (Z.to_nat (n - a)). split; [lia|].
  apply in_seq. lia.
Qed.

(** The value read back from [x.toFixed(f)], for [x] as above, is one of
    finitely many: a property checked on each of them holds of it. *)
Lemma parseFloat_toFixed_in (P : float -> bool) x f lo hi :
  finite_in lo hi x -> (0 <= lo)%Q -> (hi < exact 1e21)%Q ->
  forallb (fun n => P (Js.nearest_decimal n f))
    (Z_range (Js.toFixed_digits f lo) (Js.toFixed_digits f hi)) = true ->
  P (Js.round x f) = true.
Proof.
  intros Hx H0 H21 Hall.
  unfold Js.round.
  destruct (toFixed_finite_in x f lo hi Hx H0 H21) as (n & -> & Hn).
  cbn [Js.parseFloat].
  exact (Z_range_forallb _ _ _ Hall n Hn).
Qed.

(** ** The numbers of the pipeline *)

Ltac Qsolve := vm_compute; first [reflexivity | discriminate].

(** The position size of the Signal agent, for a confidence that is not
    negative: between 0 and 8, hence not above 20. *)
Lemma size_range (confidence : float) :
  nonneg confidence ->
  let size := Js.round (Js.Math_min (confidence * 12) 8) 1 in
  Js.le 0 size && Js.le size 8 && negb (Js.gt size 20) = true.
Proof.
  intros H size. subst size.
  pose proof (parseFloat_toFixed_in
                (fun y => Js.le 0 y && Js.le y 8 && negb (Js.gt y 20))
                (Js.Math_min (confidence * 12) 8) 1 0 (exact 8)) as K.
  cbv beta in K. apply K; clear K.
  - apply Math_min_const; [|reflexivity]. now apply mul_nonneg.
  - Qsolve.
  - Qsolve.
  - vm_compute; reflexivity.
Qed.

(** The slippage of the Execution agent. *)
Lemma slippage_range (r : float) :
  (0 <=? r)%float = true -> (r <? 1)%float = true ->
  let bps := Js.round (3.5 + r * 2) 1 in
  Js.le 3.5 bps && Js.le bps 5.5 = true.
Proof.
  intros H0 H1 bps. subst bps.
  pose proof (parseFloat_toFixed_in (fun y => Js.le 3.5 y && Js.le y 5.5)
                (3.5 + r * 2)%float 1 (exact 3.5) (exact 5.5)) as K.
  cbv beta in K. apply K; clear K.
  - apply (add_const 3.5 (r * 2) 3.5 5.5 0 (exact 2)).
    + reflexivity.
    + reflexivity.
    + reflexivity.
    + apply (mul_const r 2 2 1).
      * reflexivity.
      * Qsolve.
      * reflexivity.
      * now apply unit_interval.
      * Qsolve.
    + Qsolve.
    + Qsolve.
    + Qsolve.
  - Qsolve.
  - Qsolve.
  - vm_compute; reflexivity.
Qed.

(** The confidence drawn by the Researcher. *)
Lemma confidence_range (r : float) :
  (0 <=? r)%float = true -> (r <? 1)%float = true ->
  let confidence := Js.round (0.65 + r * 0.28) 2 in
  Js.le 0 confidence && Js.le 0.65 confidence && Js.le confidence 0.93 = true.
Proof.
  intros H0 H1 confidence. subst confidence.
  pose proof (parseFloat_toFixed_in
                (fun y => Js.le 0 y && Js.le 0.65 y && Js.le y 0.93)
                (0.65 + r * 0.28)%float 2 (exact 0.65) (exact 0.93)) as K.
  cbv beta in K. apply K; clear K.
  - apply (add_const 0.65 (r * 0.28) 0.65 0.93 0 (exact 0.28)).
    + reflexivity.
    + reflexivity.
    + reflexivity.
    + apply (mul_const r 0.28 0.28 1).
      * reflexivity.
      * Qsolve.
      * reflexivity.
      * now apply unit_interval.
      * Qsolve.
    + Qsolve.
    + Qsolve.
    + Qsolve.
  - Qsolve.
  - Qsolve.
  - vm_compute; reflexivity.
Qed.


(* ------------------------------------------------------------------ *)
(** * The agents *)

Local Open Scope string_scope.

(** C1. The Risk Manager vetoes exactly when the size is above 20 or the
    action is HOLD; a veto leaves no adjusted size and the verdict VETOED;
    otherwise the adjusted size is [min(size_pct, 5.0)] and the verdict is
    APPROVED_WITH_CONDITIONS when the size is above 5.0, APPROVED when it
    is not, in which case the adjusted size is the size itself. *)
Theorem runRiskManager_spec (signalPayload : Signal.t) :
  let size_pct := Signal.size_pct signalPayload in
  let r := runRiskManager signalPayload in
  (Risk.veto r = true <->
     Js.gt size_pct 20 = true \/ Signal.action signalPayload = "HOLD")
  /\ (Risk.veto r = true ->
        Risk.adjusted_size_pct r = None /\ Risk.verdict r = "VETOED")
  /\ (Risk.veto r = false ->
        Risk.adjusted_size_pct r = Some (Js.Math_min size_pct 5.0)
        /\ Risk.verdict r =
             if Js.gt size_pct 5.0 then "APPROVED_WITH_CONDITIONS"
             else "APPROVED")
  /\ (Risk.veto r = false -> Js.gt size_pct 5.0 = false ->
        Risk.adjusted_size_pct r = Some size_pct
        /\ Risk.verdict r = "APPROVED").
Proof.
  intros size_pct r. subst r size_pct. unfold runRiskManager.
  cbn [Risk.veto Risk.adjusted_size_pct Risk.verdict].
  split; [|split; [|split]].
  - rewrite orb_true_iff, String.eqb_eq. reflexivity.
  - intros ->. split; reflexivity.
  - intros ->. split; reflexivity.
  - intros -> G. unfold MAX_POS. rewrite G.
    now rewrite (Math_min_within _ 5 eq_refl G).
Qed.

Lemma ge_0_nonneg x : Js.ge x 0 = true -> nonneg x.
Proof. apply leb_0_nonneg. Qed.

(** C3. For a confidence that is at least 0, the size of the Signal payload
    is [min(confidence * 12, 8)] rounded to one decimal and lies in
    [[0, 8]]; the action is LONG for BULLISH, SHORT for BEARISH, HOLD
    otherwise; entry, stop and target are those of the profile; the
    expected return is [(target - price) / price * 100] rounded to two
    decimals. *)
Theorem runSignalAgent_spec (event : Event.t) (researchPayload : Research.t) :
  Js.ge (Research.confidence researchPayload) 0 = true ->
  let confidence := Research.confidence researchPayload in
  let profile := getProfile (Event.ticker event) in
  let s := runSignalAgent event researchPayload in
  Signal.size_pct s = Js.round (Js.Math_min (confidence * 12) 8) 1
  /\ Js.le 0 (Signal.size_pct s) = true /\ Js.le (Signal.size_pct s) 8 = true
  /\ (Research.signal researchPayload = "BULLISH" -> Signal.action s = "LONG")
  /\ (Research.signal researchPayload = "BEARISH" -> Signal.action s = "SHORT")
  /\ (Research.signal researchPayload <> "BULLISH" ->
      Research.signal researchPayload <> "BEARISH" -> Signal.action s = "HOLD")
  /\ Signal.entry_price s = Profile.price profile
  /\ Signal.stop_loss s = Profile.stop profile
  /\ Signal.take_profit s = Profile.tp profile
  /\ Signal.expected_return_pct s =
       Js.round
         ((Profile.tp profile - Profile.price profile)
          / Profile.price profile * 100) 2.
Proof.
  intros H confidence profile s.
  pose proof (size_range confidence (ge_0_nonneg _ H)) as R. cbv zeta in R.
  apply andb_prop in R as [R _]. apply andb_prop in R as [R0 R8].
  subst s. unfold runSignalAgent. cbn [Signal.size_pct Signal.action
    Signal.entry_price Signal.stop_loss Signal.take_profit
    Signal.expected_return_pct].
  repeat split; try assumption.
  - intros ->. reflexivity.
  - intros ->. reflexivity.
  - intros N1 N2. apply String.eqb_neq in N1, N2. now rewrite N1, N2.
Qed.

(** A confidence of 0.8 on the NVDA event gives the size 8. *)
Lemma runSignalAgent_witness :
  Js.ge 0.8 0 = true
  /\ Signal.size_pct (runSignalAgent Sample.nvda Sample.research) = 8%float.
Proof.
  split; [reflexivity|].
  destruct (runSignalAgent_spec Sample.nvda Sample.research eq_refl) as [E _].
  rewrite E. vm_compute. reflexivity.
Defined.



(** C7, as the code has it.  After a veto the Execution agent returns
    [{status: 'REJECTED', reason}] and draws nothing; otherwise the
    strategy is TWAP when the effective size is above 3 and LIMIT when it
    is not, with 30 minutes, 6 child orders, the status SIMULATED_FILL, and
    a slippage between 3.5 and 5.5, both ends included. *)
Theorem runExecutionAgent_spec (signalPayload : Signal.t)
    (riskPayload : Risk.t) (w : world) :
  Js.ge (rng w (drawn w)) 0 = true -> Js.gt 1 (rng w (drawn w)) = true ->
  (Risk.veto riskPayload = true ->
   runExecutionAgent signalPayload riskPayload w
   = (Execution.Rejected "REJECTED" "Vetoed by Risk Manager.", w))
  /\ (Risk.veto riskPayload = false ->
      exists o,
        (runExecutionAgent signalPayload riskPayload w).1 = Execution.Order o
        /\ Execution.strategy o =
             (if Js.gt (default (Signal.size_pct signalPayload)
                          (Risk.adjusted_size_pct riskPayload)) 3
              then "TWAP" else "LIMIT")
        /\ Execution.duration_min o = 30%Z
        /\ Execution.child_orders o = 6%Z
        /\ Js.le 3.5 (Execution.expected_slippage_bps o) = true
        /\ Js.le (Execution.expected_slippage_bps o) 5.5 = true
        /\ Execution.status o = "SIMULATED_FILL").
Proof.
  intros H0 H1. unfold runExecutionAgent. split; intros ->; [reflexivity|].
  pose proof (slippage_range _ H0 H1) as R. cbv zeta in R.
  apply andb_prop in R as [R1 R2].
  eexists. split; [reflexivity|]. cbn [Execution.strategy
    Execution.duration_min Execution.child_orders
    Execution.expected_slippage_bps Execution.status].
  repeat split; assumption.
Qed.

(** The draw 0.5 gives a slippage within the bounds. *)
Lemma runExecutionAgent_witness :
  Js.ge (rng Sample.start (drawn Sample.start)) 0 = true
  /\ Js.gt 1 (rng Sample.start (drawn Sample.start)) = true
  /\ exists o,
       (runExecutionAgent Sample.signal Sample.approved Sample.start).1
       = Execution.Order o
       /\ Js.le (Execution.expected_slippage_bps o) 5.5 = true.
Proof.
  split; [reflexivity|]. split; [reflexivity|].
  destruct (runExecutionAgent_spec Sample.signal Sample.approved Sample.start
              eq_refl eq_refl) as [_ H].
  destruct (H eq_refl) as (o & E & _ & _ & _ & _ & L & _).
  exists o. split; assumption.
Defined.

(** C7, as stated, fails: with the draw 0.99 the slippage is 5.5, which is
    not below 5.5. *)
Lemma slippage_reaches_5_5 :
  Js.ge (rng Sample.high (drawn Sample.high)) 0 = true
  /\ Js.gt 1 (rng Sample.high (drawn Sample.high)) = true
  /\ Risk.veto Sample.approved = false
  /\ exists o,
       (runExecutionAgent Sample.signal Sample.approved Sample.high).1
       = Execution.Order o
       /\ Execution.expected_slippage_bps o = 5.5%float
       /\ Js.gt 5.5 (Execution.expected_slippage_bps o) = false.
Proof.
  split; [reflexivity|]. split; [reflexivity|]. split; [reflexivity|].
  eexists. split; [reflexivity|]. split; vm_compute; reflexivity.
Qed.


(* ------------------------------------------------------------------ *)
(** * The orchestrator *)

Lemma bind_eq {A B} (m : M A) (k : A -> M B) w :
  (m ≫= k) w = k (m w).1 (m w).2.
Proof. unfold mbind, M_bind. destruct (m w); reflexivity. Qed.

Lemma ret_eq {A} (a : A) w : ret a w = (a, w).
Proof. reflexivity. Qed.

Lemma if_run {A} (b : bool) (m1 m2 : M A) w :
  (if b then m1 else m2) w = if b then m1 w else m2 w.
Proof. destruct b; reflexivity. Qed.

Lemma onStep_calls key payload done w :
  calls (onStep key payload done w).2
  = (calls w ++ [StepCall key payload done])%list.
Proof. reflexivity. Qed.

Lemma runSupervisor_audit (all : results) w :
  Supervisor.audit_status (runSupervisor all w).1 =
    if truthy (all !! "researcher") && truthy (all !! "risk_manager")
    then "COMPLIANT" else "NON_COMPLIANT".
Proof. reflexivity. Qed.

Ltac lookup_results :=
  repeat first
    [ rewrite lookup_insert_eq
    | rewrite lookup_insert_ne by discriminate
    | rewrite lookup_empty ].

(** Runs the orchestrator up to the veto, and splits on it. *)
Ltac run_pipeline :=
  unfold runMockPipeline; rewrite !bind_eq, if_run;
  match goal with
  | |- context [Risk.veto ?r] =>
      let rp := fresh "riskPayload" in
      let V := fresh "V" in
      set (rp := r) in *; destruct (Risk.veto rp) eqn:V;
      rewrite !bind_eq, ret_eq; cbn [fst snd]
  end.

(** C2. When the Risk stage vetoes, the result holds no Execution payload,
    the Supervisor has run (its payload is in the result and the callback
    was called with it, as the last step), and, the Researcher and Risk
    payloads being there, its audit status is COMPLIANT; as it is
    whenever these two payloads are there. *)
Theorem veto_short_circuit (event : Event.t) (w : world) :
  let res := (runMockPipeline event w).1 in
  let w' := (runMockPipeline event w).2 in
  veto_of (res !! "risk_manager") = true ->
  res !! "execution_agent" = None
  /\ (exists sup,
        res !! "supervisor" = Some (VSupervisor sup)
        /\ In (StepCall "supervisor" (VSupervisor sup) (Some true)) (calls w')
        /\ truthy (res !! "researcher") = true
        /\ truthy (res !! "risk_manager") = true
        /\ Supervisor.audit_status sup = "COMPLIANT")
  /\ (forall (all : results) (w0 : world),
        truthy (all !! "researcher") = true ->
        truthy (all !! "risk_manager") = true ->
        Supervisor.audit_status (runSupervisor all w0).1 = "COMPLIANT").
Proof.
  cbv zeta. run_pipeline.
  - intros _. split; [by lookup_results|]. split.
    + match goal with |- context [VSupervisor ?s] => exists s end.
      split; [by lookup_results|]. split.
      * rewrite onStep_calls. apply in_or_app. right. left. reflexivity.
      * split; [by lookup_results|]. split; [by lookup_results|].
        rewrite runSupervisor_audit. by lookup_results.
    + intros all w0 H1 H2. now rewrite runSupervisor_audit, H1, H2.
  - lookup_results. cbn [veto_of]. congruence.
Qed.

(** An unknown ticker is vetoed, and nothing is executed. *)
Lemma veto_short_circuit_witness :
  veto_of ((runMockPipeline Sample.unknown Sample.start).1 !! "risk_manager")
  = true
  /\ (runMockPipeline Sample.unknown Sample.start).1 !! "execution_agent"
     = None.
Proof.
  assert (V : veto_of ((runMockPipeline Sample.unknown Sample.start).1
                         !! "risk_manager") = true)
    by (vm_compute; reflexivity).
  split; [exact V|].
  exact (proj1 (veto_short_circuit Sample.unknown Sample.start V)).
Defined.

(** C9. The result carries [_vetoed], equal to the veto of the Risk
    payload; without a veto it has the status 'complete'; with a veto,
    [_vetoed] is true and there is no [status]. *)
Theorem run_result_flags (event : Event.t) (w : world) :
  let res := (runMockPipeline event w).1 in
  exists risk,
    res !! "risk_manager" = Some (VRisk risk)
    /\ res !! "_vetoed" = Some (VBool (Risk.veto risk))
    /\ (Risk.veto risk = false -> res !! "status" = Some (VStr "complete"))
    /\ (Risk.veto risk = true ->
        res !! "_vetoed" = Some (VBool true) /\ res !! "status" = None).
Proof.
  cbv zeta. run_pipeline; exists riskPayload; lookup_results; rewrite V;
    repeat split; congruence.
Qed.






(* ------------------------------------------------------------------ *)
(** * The API service *)

Local Open Scope Z_scope.

Lemma status_ok_iff status : status_ok status = true <-> 200 <= status <= 299.
Proof. unfold status_ok. rewrite andb_true_iff, !Z.leb_le. reflexivity. Qed.



Lemma fetch_times_app l1 l2 :
  fetch_times (l1 ++ l2) = (fetch_times l1 ++ fetch_times l2)%list.
Proof. unfold fetch_times. apply omap_app. Qed.

Section PollLoop.
Variable script : nat -> Poll.tick.
Variable url : string.
Variables deadline intervalMs start : Z.

Local Abbreviation tt := (turn_time script intervalMs start).
Local Abbreviation ft := (fetch_time script intervalMs start).

(** One turn of the loop. *)
Lemma poll_loop_step fuel k log :
  poll_loop (S fuel) script url deadline intervalMs k (tt k) log =
  if Z.ltb (tt k) deadline then
    let log' :=
      (log ++ [Poll.Ping (round_seconds (deadline - ft k));
               Poll.Fetch (url ++ "&t=" ++ Js.string_of_Z (ft k))%string
                 (ft k)])%list in
    match answer (script k) with
    | Some data => Some (Returned data, log')
    | None =>
        poll_loop fuel script url deadline intervalMs (S k) (tt (S k)) log'
    end
  else Some (Thrown timeout_error, log).
Proof.
  cbn [poll_loop]. destruct (Z.ltb (tt k) deadline); [|reflexivity].
  rewrite <- app_assoc. cbn [app]. unfold answer, fetch_time.
  cbn [turn_time].
  destruct (Poll.fetched (script k)) as [|status b]; [reflexivity|].
  destruct (status_ok status); [|destruct b; reflexivity].
  destruct b as [| |data]; try reflexivity.
  cbn [andb]. destruct (is_complete (Poll.Object data)); reflexivity.
Qed.

Hypothesis env : causal script.
Hypothesis interval_pos : 0 < intervalMs.

Lemma turn_time_step k : tt k + intervalMs <= tt (S k).
Proof. cbn [turn_time]. destruct (env k). lia. Qed.

Lemma turn_time_lower k : start + Z.of_nat k * intervalMs <= tt k.
Proof.
  induction k as [|k IH]; [cbn; lia|].
  pose proof (turn_time_step k). lia.
Qed.

(** With fuel for the turns that fit before the deadline, the loop ends,
    and ends as [loop_outcome] says. *)
Lemma poll_loop_outcome fuel : forall k log,
  deadline - tt k <= Z.of_nat fuel * intervalMs ->
  exists r log',
    poll_loop (S fuel) script url deadline intervalMs k (tt k) log
    = Some (r, log')
    /\ loop_outcome script deadline intervalMs start k log r log'.
Proof.
  induction fuel as [|fuel IH]; intros k log Hf; rewrite poll_loop_step.
  - destruct (Z.ltb_spec (tt k) deadline) as [L|L]; [lia|].
    eexists _, _. split; [reflexivity|]. exists k.
    split; [lia|]. split; [lia|].
    split; [reflexivity|]. split; [exact L|].
    rewrite Nat.sub_diag. cbn. now rewrite app_nil_r.
  - destruct (Z.ltb_spec (tt k) deadline) as [L|L].
    + cbv zeta. destruct (answer (script k)) as [data|] eqn:A.
      * eexists _, _. split; [reflexivity|]. exists k.
        split; [lia|]. split; [lia|].
        split; [exact L|]. split; [exact A|].
        replace (S k - k)%nat with 1%nat by lia.
        rewrite fetch_times_app. reflexivity.
      * pose proof (turn_time_step k) as Hs.
        destruct (IH (S k)
                    (log ++ [Poll.Ping (round_seconds (deadline - ft k));
                             Poll.Fetch
                               (url ++ "&t=" ++ Js.string_of_Z (ft k))%string
                               (ft k)])%list)
          as (r & log' & E & n & Hn & Hall & Hr); [lia|].
        exists r, log'. split; [exact E|]. exists n. split; [lia|]. split.
        { intros j Hj. destruct (Nat.eq_dec j k) as [->|]; [now split|].
          apply Hall. lia. }
        rewrite fetch_times_app in Hr. cbn [fetch_times omap] in Hr.
        destruct r as [data|e].
        -- destruct Hr as (H1 & H2 & H3). split; [exact H1|].
           split; [exact H2|]. rewrite H3, <- app_assoc. f_equal.
           replace (S n - k)%nat with (S (S n - S k)) by lia. reflexivity.
        -- destruct Hr as (H1 & H2 & H3). split; [exact H1|].
           split; [exact H2|]. rewrite H3, <- app_assoc. f_equal.
           replace (n - k)%nat with (S (n - S k)) by lia. reflexivity.
    + eexists _, _. split; [reflexivity|]. exists k.
      split; [lia|]. split; [lia|].
      split; [reflexivity|]. split; [exact L|].
      rewrite Nat.sub_diag. cbn. now rewrite app_nil_r.
Qed.

End PollLoop.

Lemma ceil_div_spec D I : 0 < I -> D <= ceil_div D I * I.
Proof.
  intros H. unfold ceil_div.
  pose proof (Z.mul_div_le (- D) I H). lia.
Qed.

Lemma ceil_div_gt D I j : 0 < I -> j * I < D -> j + 1 <= ceil_div D I.
Proof.
  intros H L. unfold ceil_div.
  assert (- D / I < - j) by (apply Z.div_lt_upper_bound; lia). lia.
Qed.

Lemma answer_complete t data :
  answer t = Some data -> data !! "status"%string = Some (VStr "complete").
Proof.
  unfold answer. destruct (Poll.fetched t) as [|status [| |d]]; try discriminate.
  destruct (status_ok status); [|discriminate]. cbn [andb].
  destruct (is_complete (Poll.Object d)) eqn:C; [|discriminate].
  intros [= <-]. unfold is_complete in C.
  destruct (d !! "status"%string) as [[| | | | | |s]|]; try discriminate.
  apply String.eqb_eq in C. now subst.
Qed.

(** The run of [pollForResult], with fuel for the turns that fit in the
    wait. *)
Lemma pollForResult_outcome (fuel : nat) (script : nat -> Poll.tick)
    (start : Z) (runId : string) (o : Poll.opts) :
  let D := default 120000 (Poll.maxWaitMs o) in
  let I := default 3000 (Poll.intervalMs o) in
  causal script -> 0 < I ->
  (Z.to_nat (ceil_div D I) < fuel)%nat ->
  exists r log,
    pollForResult fuel script start runId o = Some (r, log)
    /\ loop_outcome script (start + D) I start 0 [] r log.
Proof.
  intros D I Hc HI Hf. unfold pollForResult. fold D I.
  destruct fuel as [|fuel]; [lia|].
  apply (poll_loop_outcome script _ (start + D) I start Hc HI fuel 0%nat []).
  cbn [turn_time]. pose proof (ceil_div_spec D I HI). nia.
Qed.

(** C5, as the code has it.  With fuel for the turns that fit in the wait,
    the poll ends.  It returns a body only when a request of a turn that
    began before the deadline is answered with a successful response
    whose body is complete, and then returns that body; every turn before
    it began before the deadline and was retried, whatever it met.  It
    raises the timeout error at the first test of the deadline that finds
    it reached, every turn before having been retried.  The body returned
    always has the status 'complete'.  The requests sent are those of the
    turns gone through, each after the sleep of its turn. *)
Theorem pollForResult_spec (fuel : nat) (script : nat -> Poll.tick)
    (start : Z) (runId : string) (o : Poll.opts) :
  let D := default 120000 (Poll.maxWaitMs o) in
  let I := default 3000 (Poll.intervalMs o) in
  causal script -> 0 < I ->
  (Z.to_nat (ceil_div D I) < fuel)%nat ->
  exists r log,
    pollForResult fuel script start runId o = Some (r, log)
    /\ exists n,
         (forall j, (j < n)%nat ->
            turn_time script I start j < start + D
            /\ answer (script j) = None)
         /\ match r with
            | Returned data =>
                turn_time script I start n < start + D
                /\ answer (script n) = Some data
                /\ data !! "status"%string = Some (VStr "complete")
                /\ fetch_times log
                   = map (fetch_time script I start) (seq 0 (S n))
            | Thrown e =>
                e = timeout_error
                /\ start + D <= turn_time script I start n
                /\ fetch_times log = map (fetch_time script I start) (seq 0 n)
            end.
Proof.
  intros D I Hc HI Hf.
  destruct (pollForResult_outcome fuel script start runId o Hc HI Hf)
    as (r & log & E & n & _ & Hall & Hr).
  exists r, log. split; [exact E|]. exists n. split.
  - intros j Hj. apply Hall. lia.
  - destruct r as [data|e].
    + destruct Hr as (H1 & H2 & H3). split; [exact H1|]. split; [exact H2|].
      split; [exact (answer_complete _ _ H2)|].
      rewrite H3. now rewrite Nat.sub_0_r.
    + destruct Hr as (H1 & H2 & H3). split; [exact H1|]. split; [exact H2|].
      rewrite H3. now rewrite Nat.sub_0_r.
Qed.

Lemma causal_ready : causal Sample.ready.
Proof. intros k. cbn. lia. Qed.

(** With the default options and a result that is ready, the poll ends. *)
Lemma pollForResult_witness :
  causal Sample.ready /\ 0 < 3000
  /\ (Z.to_nat (ceil_div 120000 3000) < 41)%nat
  /\ exists r log,
       pollForResult 41 Sample.ready 0 "run-0" Sample.defaults = Some (r, log).
Proof.
  split; [exact causal_ready|]. split; [lia|].
  assert (F : (Z.to_nat (ceil_div 120000 3000) < 41)%nat) by (vm_compute; lia).
  split; [exact F|].
  destruct (pollForResult_spec 41 Sample.ready 0 "run-0" Sample.defaults
              causal_ready ltac:(cbn; lia) F) as (r & log & E & _).
  exists r, log. exact E.
Defined.

(** C5, as stated, fails: with the default options, timers that fire 5 ms
    late and a result that is there at the 40th request, the poll returns
    that result, although no request sent before the deadline found it:
    the 40th request is sent 200 ms after the deadline. *)
Lemma poll_success_after_deadline :
  causal Sample.late
  /\ (exists log,
        pollForResult 41 Sample.late 0 "run-0" Sample.defaults
        = Some (Returned Sample.complete_run, log))
  /\ (forall k,
        fetch_time Sample.late 3000 0 k < 0 + 120000 ->
        answer (Sample.late k) = None)
  /\ fetch_time Sample.late 3000 0 39 = 120200.
Proof.
  split; [intros k; cbn; lia|]. split; [eexists; vm_compute; reflexivity|].
  split; [|vm_compute; reflexivity].
  intros k H. unfold answer, Sample.late. cbn [Poll.fetched].
  destruct (Nat.eqb_spec k 39) as [->|N]; [|reflexivity].
  vm_compute in H. discriminate.
Qed.

(** C6. With a wait [D] and an interval [I], the poll makes at most
    [ceil(D / I)] requests: each is preceded by a sleep of [I], and the
    loop stops once the deadline is reached. *)
Theorem pollForResult_attempts (fuel : nat) (script : nat -> Poll.tick)
    (start : Z) (runId : string) (o : Poll.opts) :
  let D := default 120000 (Poll.maxWaitMs o) in
  let I := default 3000 (Poll.intervalMs o) in
  causal script -> 0 < I -> 0 <= D ->
  (Z.to_nat (ceil_div D I) < fuel)%nat ->
  exists r log,
    pollForResult fuel script start runId o = Some (r, log)
    /\ Z.of_nat (attempts log) <= ceil_div D I.
Proof.
  intros D I Hc HI HD Hf.
  destruct (pollForResult_outcome fuel script start runId o Hc HI Hf)
    as (r & log & E & n & _ & Hall & Hr).
  fold I in Hall, Hr. fold D in Hall, Hr.
  exists r, log. split; [exact E|]. unfold attempts.
  destruct r as [data|e].
  - destruct Hr as (H1 & _ & ->).
    change (fetch_times []) with (@nil Z). cbn [app].
    rewrite List.length_map, List.length_seq.
    pose proof (turn_time_lower script I start Hc HI n).
    pose proof (ceil_div_gt D I (Z.of_nat n) HI). lia.
  - destruct Hr as (_ & _ & ->).
    change (fetch_times []) with (@nil Z). cbn [app].
    rewrite List.length_map, List.length_seq.
    destruct n as [|n].
    + pose proof (ceil_div_spec D I HI). cbn. nia.
    + destruct (Hall n ltac:(lia)) as [H1 _].
      pose proof (turn_time_lower script I start Hc HI n).
      pose proof (ceil_div_gt D I (Z.of_nat n) HI). lia.
Qed.

(** With the default options, at most 40 requests. *)
Lemma pollForResult_attempts_witness :
  causal Sample.ready /\ 0 < 3000 /\ 0 <= 120000
  /\ (Z.to_nat (ceil_div 120000 3000) < 41)%nat
  /\ exists r log,
       pollForResult 41 Sample.ready 0 "run-0" Sample.defaults = Some (r, log)
       /\ Z.of_nat (attempts log) <= 40.
Proof.
  split; [exact causal_ready|]. split; [lia|]. split; [lia|].
  assert (F : (Z.to_nat (ceil_div 120000 3000) < 41)%nat) by (vm_compute; lia).
  split; [exact F|].
  exact (pollForResult_attempts 41 Sample.ready 0 "run-0" Sample.defaults
           causal_ready ltac:(cbn; lia) ltac:(cbn; lia) F).
Defined.


(* ------------------------------------------------------------------ *)
(** * The scenarios of the specification *)

Local Open Scope string_scope.

(** On integers that binary64 holds exactly, the number read from a
    decimal numeral is the quotient that the division of the format
    gives. *)
Example nearest_decimal_samples :
  forallb
    (fun n =>
       Leibniz.eqb (Js.nearest_decimal n 2)
         (SF2Prim (binary_normalize prec emax n 0 false) / 100)%float)
    (Z_range 0 2000) = true.
Proof. vm_compute. reflexivity. Qed.

Example round_samples :
  Js.round (0.8 * 12) 1 = 9.6%float
  /\ Js.round 1.005 2 = 1%float
  /\ Js.round (-0.25) 1 = (-0.3)%float
  /\ Js.round ((182 - 189.5) / 189.5 * 100) 2 = (-3.96)%float
  /\ Js.string_of_Z 404 = "404".
Proof. vm_compute. repeat split; reflexivity. Qed.

(** The NVDA event with a confidence of 0.80: LONG with size 8, approved
    with conditions at 5, executed by TWAP, compliant, not vetoed. *)
Example nvda_end_to_end :
  digest (runMockPipeline Sample.nvda Sample.start)
  = (Some ("BULLISH", 0.8%float),
     Some ("LONG", 8%float, 875%float),
     Some ("APPROVED_WITH_CONDITIONS", Some 5%float),
     Some "TWAP",
     Some ("COMPLIANT", false, 4%nat),
     Some (VBool false),
     ["researcher"; "signal_agent"; "risk_manager"; "execution_agent";
      "supervisor"]).
Proof. vm_compute. reflexivity. Qed.

(** An unknown ticker: HOLD, vetoed, nothing executed, a human review
    required. *)
Example unknown_end_to_end :
  digest (runMockPipeline Sample.unknown Sample.start)
  = (Some ("NEUTRAL", 0.8%float),
     Some ("HOLD", 8%float, 100%float),
     Some ("VETOED", None),
     None,
     Some ("COMPLIANT", true, 3%nat),
     Some (VBool true),
     ["researcher"; "signal_agent"; "risk_manager"; "supervisor"]).
Proof. vm_compute. reflexivity. Qed.

(* ------------------------------------------------------------------ *)
(** * More on the comparison of numbers *)

Local Open Scope Z_scope.
Local Close Scope string_scope.

Lemma SFcompare_antisym x y :
  SFcompare y x = option_map CompOpp (SFcompare x y).
Proof.
  destruct x as [sx|sx| |sx mx ex], y as [sy|sy| |sy my ey];
    cbn [SFcompare option_map]; try reflexivity;
    try (destruct sx; reflexivity); try (destruct sy; reflexivity);
    try (destruct sx, sy; reflexivity).
  f_equal. rewrite (Z.compare_antisym ex ey).
  change (Pos.compare_cont Eq my mx) with (Pos.compare my mx).
  change (Pos.compare_cont Eq mx my) with (Pos.compare mx my).
  rewrite (Pos.compare_antisym mx my).
  destruct sx, sy, (ex ?= ey), (mx ?= my)%positive; reflexivity.
Qed.

Lemma not_nan_spec a : is_nan a = false -> Prim2SF a <> S754_nan.
Proof.
  unfold is_nan. rewrite FloatAxioms.eqb_spec. intros H E. rewrite E in H.
  discriminate H.
Qed.

Lemma SFcompare_refl x : x <> S754_nan -> SFcompare x x = Some Eq.
Proof.
  destruct x as [s|s| |s m e]; intros H; try congruence; cbn [SFcompare].
  - reflexivity.
  - destruct s; reflexivity.
  - rewrite Z.compare_refl, Pos.compare_cont_refl. destruct s; reflexivity.
Qed.

Lemma SFcompare_some x y :
  x <> S754_nan -> y <> S754_nan -> exists c, SFcompare x y = Some c.
Proof.
  destruct x as [sx|sx| |sx mx ex], y as [sy|sy| |sy my ey]; intros Hx Hy;
    try congruence; cbn [SFcompare]; eauto.
Qed.

Lemma leb_refl a : is_nan a = false -> (a <=? a)%float = true.
Proof.
  intros H. rewrite FloatAxioms.leb_spec. unfold SFleb.
  now rewrite (SFcompare_refl _ (not_nan_spec a H)).
Qed.

Lemma ltb_leb a b : (a <? b)%float = true -> (a <=? b)%float = true.
Proof.
  rewrite FloatAxioms.ltb_spec, FloatAxioms.leb_spec. unfold SFltb, SFleb.
  destruct (SFcompare (Prim2SF a) (Prim2SF b)) as [[]|]; congruence.
Qed.

Lemma ltb_antisym a b : (a <? b)%float = true -> (b <? a)%float = false.
Proof.
  rewrite !FloatAxioms.ltb_spec. unfold SFltb.
  rewrite (SFcompare_antisym (Prim2SF a) (Prim2SF b)).
  destruct (SFcompare (Prim2SF a) (Prim2SF b)) as [[]|]; cbn; congruence.
Qed.

Lemma ltb_not_nan a b :
  (a <? b)%float = true -> is_nan a = false /\ is_nan b = false.
Proof.
  rewrite FloatAxioms.ltb_spec. unfold SFltb, is_nan.
  rewrite !FloatAxioms.eqb_spec. unfold SFeqb.
  destruct (Prim2SF a) as [sx|sx| |sx mx ex] eqn:Ea,
           (Prim2SF b) as [sy|sy| |sy my ey] eqn:Eb;
    cbn [SFcompare]; try discriminate; intros _;
    rewrite ?Z.compare_refl, ?Pos.compare_cont_refl;
    repeat match goal with s : bool |- _ => destruct s end; split; reflexivity.
Qed.

(** On numbers, [a <= b] is the negation of [b < a]. *)
Lemma leb_negb_ltb a b :
  is_nan a = false -> is_nan b = false ->
  (a <=? b)%float = negb (b <? a)%float.
Proof.
  intros Ha Hb. rewrite FloatAxioms.ltb_spec, FloatAxioms.leb_spec.
  unfold SFltb, SFleb.
  rewrite (SFcompare_antisym (Prim2SF a) (Prim2SF b)).
  destruct (SFcompare_some _ _ (not_nan_spec a Ha) (not_nan_spec b Hb))
    as [[] ->]; reflexivity.
Qed.

(** [Math.min] of two numbers is one of them, and is at most each. *)
Lemma Math_min_cases a c :
  Js.Math_min a c = a \/ Js.Math_min a c = c \/ Js.Math_min a c = nan.
Proof.
  unfold Js.Math_min.
  destruct (is_nan a || is_nan c); [tauto|].
  destruct (a <? c)%float; [tauto|]. destruct (c <? a)%float; [tauto|].
  destruct (Js.is_neg_zero a); tauto.
Qed.

Lemma Math_min_le_r a c :
  is_nan a = false -> is_nan c = false -> Js.le (Js.Math_min a c) c = true.
Proof.
  intros Ha Hc. unfold Js.Math_min, Js.le. rewrite Ha, Hc. cbn [orb].
  destruct (a <? c)%float eqn:L1; [now apply ltb_leb|].
  destruct (c <? a)%float eqn:L2; [now apply leb_refl|].
  destruct (Js.is_neg_zero a); [|now apply leb_refl].
  now rewrite (leb_negb_ltb a c Ha Hc), L2.
Qed.

Lemma Math_min_le_l a c :
  is_nan a = false -> is_nan c = false -> Js.le (Js.Math_min a c) a = true.
Proof.
  intros Ha Hc. unfold Js.Math_min, Js.le. rewrite Ha, Hc. cbn [orb].
  destruct (a <? c)%float eqn:L1; [now apply leb_refl|].
  destruct (c <? a)%float eqn:L2; [now apply ltb_leb|].
  destruct (Js.is_neg_zero a); [now apply leb_refl|].
  now rewrite (leb_negb_ltb c a Hc Ha), L1.
Qed.

(** [Math.min(a, c)] is [c] when [a > c]. *)
Lemma Math_min_above a c : Js.gt a c = true -> Js.Math_min a c = c.
Proof.
  unfold Js.gt. intros G. destruct (ltb_not_nan _ _ G) as [Hc Ha].
  unfold Js.Math_min. rewrite Ha, Hc, (ltb_antisym _ _ G), G. reflexivity.
Qed.

(** A number above 5 is above 3. *)
Lemma gt_5_gt_3 a : Js.gt a 5 = true -> Js.gt a 3 = true.
Proof.
  unfold Js.gt. rewrite !FloatAxioms.ltb_spec. unfold SFltb.
  let v := eval vm_compute in (Prim2SF 5) in change (Prim2SF 5) with v.
  let v := eval vm_compute in (Prim2SF 3) in change (Prim2SF 3) with v.
  destruct (Prim2SF a) as [s|s| |s m e]; cbn [SFcompare]; try discriminate.
  - destruct s; [discriminate|reflexivity].
  - destruct s; [discriminate|].
    destruct (Z.compare_spec (-50) e) as [E|E|E]; try discriminate.
    + subst e. reflexivity.
    + intros _.
      destruct (Z.compare_spec (-51) e) as [E'|E'|E'];
        first [reflexivity | lia].
Qed.

(** The strategy of the Execution agent may be judged on the size before
    the cap as well as after it. *)
Lemma gt_3_Math_min a : Js.gt (Js.Math_min a 5) 3 = Js.gt a 3.
Proof.
  destruct (Js.gt a 5) eqn:G.
  - rewrite (Math_min_above _ _ G), (gt_5_gt_3 _ G). reflexivity.
  - now rewrite (Math_min_within a 5 eq_refl G).
Qed.

Lemma nonneg_leb x : nonneg x -> (0 <=? x)%float = true.
Proof.
  unfold nonneg. rewrite FloatAxioms.leb_spec.
  change (Prim2SF 0) with (S754_zero false).
  intros H. destruct (sf_ge_0_cases _ H) as [[s ->]|[(m & e & ->)| ->]];
    reflexivity.
Qed.

(** A number of [[0, c]] is at most [c], for a positive constant [c]. *)
Lemma finite_in_leb x c :
  positive_finite c = true -> finite_in 0 (exact c) x -> (x <=? c)%float = true.
Proof.
  intros Hc [G L].
  apply positive_finite_spec in Hc as (mc & ec & Ec & Bc & Vc & _).
  rewrite FloatAxioms.leb_spec, Ec. unfold SFleb.
  destruct (Prim2SF x) as [s|s| |[] m e] eqn:Ex; cbn [sf_ge sf_le] in *;
    try contradiction.
  - reflexivity.
  - pose proof (SF2Q_neg m e). lra.
  - rewrite (SFcompare_pos _ _ _ _ (valid_finite _ _ _ _ Ex) Bc).
    rewrite SF2Q_pos, Vc in L.
    destruct (Qcompare_spec (dyadic (Zpos m) e) (dyadic (Zpos mc) ec))
      as [E|E|E]; try reflexivity. lra.
Qed.

(* ------------------------------------------------------------------ *)
(** * The agents, further *)

Local Open Scope string_scope.

(** X1.  [jitter()] for a draw of the unit interval: between 0 and 400, and one
    draw of the random source is consumed. *)
Theorem jitter_range (w : world) :
  Js.ge (rng w (drawn w)) 0 = true -> Js.gt 1 (rng w (drawn w)) = true ->
  Js.le 0 (jitter w).1 = true /\ Js.le (jitter w).1 400 = true
  /\ (jitter w).2 = World (rng w) (S (drawn w)) (calls w).
Proof.
  intros H0 H1.
  assert (R : finite_in 0 (exact 400) (rng w (drawn w) * 400)%float).
  { apply (mul_const _ 400 400 1).
    - reflexivity.
    - Qsolve.
    - reflexivity.
    - now apply unit_interval.
    - Qsolve. }
  change ((jitter w).1) with (rng w (drawn w) * 400)%float.
  split; [|split; [|reflexivity]].
  - apply nonneg_leb. exact (proj1 R).
  - now apply finite_in_leb.
Qed.

Lemma jitter_range_witness :
  Js.ge (rng Sample.start (drawn Sample.start)) 0 = true
  /\ Js.gt 1 (rng Sample.start (drawn Sample.start)) = true
  /\ Js.le (jitter Sample.start).1 400 = true.
Proof.
  split; [reflexivity|]. split; [reflexivity|].
  exact (proj1 (proj2 (jitter_range Sample.start eq_refl eq_refl))).
Defined.

(** X2.  [runResearcher] for a draw of the unit interval: the confidence lies
    between 0.65 and 0.93, the signal is the bias of the ticker's profile,
    the regime is RISK_ON exactly for a BULLISH signal, the source of the
    event comes first among the sources, four risks are listed, and one
    draw is consumed. *)
Theorem runResearcher_range (event : Event.t) (w : world) :
  Js.ge (rng w (drawn w)) 0 = true -> Js.gt 1 (rng w (drawn w)) = true ->
  let p := (runResearcher event w).1 in
  Js.le 0.65 (Research.confidence p) = true
  /\ Js.le (Research.confidence p) 0.93 = true
  /\ Research.signal p = Profile.bias (getProfile (Event.ticker event))
  /\ (Research.regime p = "RISK_ON" <-> Research.signal p = "BULLISH")
  /\ (Research.regime p = "RISK_OFF" <-> Research.signal p <> "BULLISH")
  /\ hd_error (Research.sources p) = Some (Event.source event)
  /\ length (Research.key_risks p) = 4%nat
  /\ (runResearcher event w).2 = World (rng w) (S (drawn w)) (calls w).
Proof.
  intros H0 H1 p.
  pose proof (confidence_range _ H0 H1) as R. cbv zeta in R.
  apply andb_prop in R as [R R2]. apply andb_prop in R as [_ R1].
  split; [exact R1|]. split; [exact R2|]. split; [reflexivity|].
  assert (G : Research.regime p =
              if String.eqb (Research.signal p) "BULLISH"
              then "RISK_ON" else "RISK_OFF") by reflexivity.
  assert (K : Research.key_risks p
              = buildRisks (getProfile (Event.ticker event))) by reflexivity.
  split; [|split; [|split; [reflexivity|split; [|reflexivity]]]].
  - rewrite G. destruct (String.eqb_spec (Research.signal p) "BULLISH");
      split; congruence.
  - rewrite G. destruct (String.eqb_spec (Research.signal p) "BULLISH");
      split; congruence.
  - rewrite K. unfold buildRisks.
    destruct (String.eqb _ _); reflexivity.
Qed.

Lemma runResearcher_range_witness :
  Js.ge (rng Sample.start (drawn Sample.start)) 0 = true
  /\ Js.gt 1 (rng Sample.start (drawn Sample.start)) = true
  /\ Js.le (Research.confidence (runResearcher Sample.nvda Sample.start).1)
       0.93 = true.
Proof.
  split; [reflexivity|]. split; [reflexivity|].
  exact (proj1 (proj2
    (runResearcher_range Sample.nvda Sample.start eq_refl eq_refl))).
Defined.

(** Every profile, the neutral one included, is one on which a property
    checked on the seven of them holds. *)
Lemma forall_profiles (P : Profile.t -> Prop) :
  P neutral_profile ->
  Forall (fun k => P (default neutral_profile (TICKER_PROFILES !! k)))
    known_tickers ->
  forall ticker, P (getProfile ticker).
Proof.
  intros N K ticker. unfold getProfile.
  set (u := toUpperCase ticker). clearbody u.
  destruct (in_dec string_dec u known_tickers) as [I|I].
  - exact (proj1 (List.Forall_forall _ _) K u I).
  - unfold TICKER_PROFILES. cbn in I.
    rewrite !lookup_insert_ne by (intros E; apply I; rewrite <- E; tauto).
    rewrite lookup_empty. exact N.
Qed.

(** X3.  The signal drawn from the research of [runResearcher] follows the
    profile of the ticker: its action is the action of the profile, one of
    LONG, SHORT and HOLD; for SHORT the target is below the entry, the stop
    above it and the expected return negative; otherwise the target is
    above the entry, the stop below it and the expected return positive. *)
Theorem signal_follows_profile (event : Event.t) (w : world) :
  let s := runSignalAgent event (runResearcher event w).1 in
  Signal.action s = Profile.action (getProfile (Event.ticker event))
  /\ In (Signal.action s) ["LONG"; "SHORT"; "HOLD"]
  /\ (Signal.action s = "SHORT" ->
      Js.gt (Signal.entry_price s) (Signal.take_profit s) = true
      /\ Js.gt (Signal.stop_loss s) (Signal.entry_price s) = true
      /\ Js.gt 0 (Signal.expected_return_pct s) = true)
  /\ (Signal.action s <> "SHORT" ->
      Js.gt (Signal.take_profit s) (Signal.entry_price s) = true
      /\ Js.gt (Signal.entry_price s) (Signal.stop_loss s) = true
      /\ Js.gt (Signal.expected_return_pct s) 0 = true).
Proof.
  intros s. subst s. unfold runSignalAgent.
  cbn [Signal.action Signal.entry_price Signal.stop_loss Signal.take_profit
       Signal.expected_return_pct].
  change (Research.signal (runResearcher event w).1)
    with (Profile.bias (getProfile (Event.ticker event))).
  pattern (getProfile (Event.ticker event)).
  apply forall_profiles;
    [|unfold known_tickers;
      repeat first [apply List.Forall_cons | apply List.Forall_nil]];
    vm_compute; intuition congruence.
Qed.

(** X4.  The Risk Manager never lets more than the cap through: for a size that
    is a number and a trade that is not vetoed, the adjusted size is at
    most 5, at most the size asked for, and is one of the two. *)
Theorem runRiskManager_cap (signalPayload : Signal.t) :
  is_nan (Signal.size_pct signalPayload) = false ->
  Risk.veto (runRiskManager signalPayload) = false ->
  exists adjusted,
    Risk.adjusted_size_pct (runRiskManager signalPayload) = Some adjusted
    /\ Js.le adjusted 5 = true
    /\ Js.le adjusted (Signal.size_pct signalPayload) = true
    /\ (adjusted = Signal.size_pct signalPayload \/ adjusted = 5%float).
Proof.
  intros N V. unfold runRiskManager in *.
  cbn [Risk.veto Risk.adjusted_size_pct] in *. rewrite V.
  eexists. split; [reflexivity|]. unfold MAX_POS.
  split; [now apply Math_min_le_r|]. split; [now apply Math_min_le_l|].
  destruct (Math_min_cases (Signal.size_pct signalPayload) 5) as [E|[E|E]];
    [now left|now right|].
  exfalso. pose proof (Math_min_le_r _ 5 N eq_refl) as L.
  rewrite E in L. discriminate L.
Qed.

Lemma runRiskManager_cap_witness :
  is_nan (Signal.size_pct Sample.signal) = false
  /\ Risk.veto (runRiskManager Sample.signal) = false
  /\ exists adjusted,
       Risk.adjusted_size_pct (runRiskManager Sample.signal) = Some adjusted
       /\ Js.le adjusted 5 = true.
Proof.
  split; [reflexivity|]. split; [reflexivity|].
  destruct (runRiskManager_cap Sample.signal eq_refl eq_refl)
    as (a & E & L & _).
  exists a. split; assumption.
Defined.

(** X5.  The risk metrics: for a size that is a number, the position limit is
    met exactly when the size is not above 5, that is, for a trade that is
    not vetoed, exactly when the verdict is the plain APPROVED; drawdown
    and liquidity are always reported as met. *)
Theorem runRiskManager_metrics (signalPayload : Signal.t) :
  is_nan (Signal.size_pct signalPayload) = false ->
  let r := runRiskManager signalPayload in
  Risk.position_limit_ok (Risk.risk_metrics r)
  = negb (Js.gt (Signal.size_pct signalPayload) 5)
  /\ (Risk.veto r = false ->
      (Risk.position_limit_ok (Risk.risk_metrics r) = true
       <-> Risk.verdict r = "APPROVED"))
  /\ Risk.drawdown_ok (Risk.risk_metrics r) = true
  /\ Risk.liquidity_ok (Risk.risk_metrics r) = true.
Proof.
  intros N r. subst r. unfold runRiskManager.
  cbn [Risk.veto Risk.verdict Risk.risk_metrics Risk.position_limit_ok
       Risk.drawdown_ok Risk.liquidity_ok].
  unfold MAX_POS, Js.le, Js.gt. rewrite (leb_negb_ltb _ 5 N eq_refl).
  split; [reflexivity|]. split; [|split; reflexivity].
  intros ->. destruct (5 <? Signal.size_pct signalPayload)%float;
    cbn; split; congruence.
Qed.

Lemma runRiskManager_metrics_witness :
  is_nan (Signal.size_pct Sample.signal) = false
  /\ Risk.position_limit_ok (Risk.risk_metrics (runRiskManager Sample.signal))
     = negb (Js.gt (Signal.size_pct Sample.signal) 5).
Proof.
  split; [reflexivity|].
  exact (proj1 (runRiskManager_metrics Sample.signal eq_refl)).
Defined.

(** X6.  A size that is not a number is not stopped: unless the action is HOLD
    the trade is approved, with the verdict APPROVED and NaN as adjusted
    size, while the position limit is reported as not met. *)
Theorem runRiskManager_nan (signalPayload : Signal.t) :
  is_nan (Signal.size_pct signalPayload) = true ->
  Signal.action signalPayload <> "HOLD" ->
  let r := runRiskManager signalPayload in
  Risk.veto r = false
  /\ Risk.verdict r = "APPROVED"
  /\ Risk.adjusted_size_pct r = Some nan
  /\ Risk.position_limit_ok (Risk.risk_metrics r) = false.
Proof.
  intros N H r. subst r. apply is_nan_spec in N. apply String.eqb_neq in H.
  unfold runRiskManager.
  cbn [Risk.veto Risk.verdict Risk.adjusted_size_pct Risk.risk_metrics
       Risk.position_limit_ok].
  rewrite N, H. repeat split.
Qed.

Lemma runRiskManager_nan_witness :
  is_nan nan = true /\ "LONG" <> "HOLD"
  /\ Risk.verdict
       (runRiskManager
          (Signal.mk "LONG" "NVDA" nan 875 850 920 "" 1.8 5.14 "mock-res-001"))
     = "APPROVED".
Proof.
  split; [reflexivity|]. split; [discriminate|].
  exact (proj1 (proj2
    (runRiskManager_nan
       (Signal.mk "LONG" "NVDA" nan 875 850 920 "" 1.8 5.14 "mock-res-001")
       eq_refl ltac:(discriminate)))).
Defined.

(** X7.  The Execution agent after the Risk Manager: for a trade that is not
    vetoed an order is returned; the size it works with is the adjusted
    size of the risk review, the fallback to the size of the signal never
    being taken; and the strategy is TWAP exactly when the size of the
    signal is above 3, the cap at 5 making no difference to it. *)
Theorem execution_after_risk (signalPayload : Signal.t) (w : world) :
  let riskPayload := runRiskManager signalPayload in
  Risk.veto riskPayload = false ->
  exists o,
    runExecutionAgent signalPayload riskPayload w
    = (Execution.Order o, World (rng w) (S (drawn w)) (calls w))
    /\ Risk.adjusted_size_pct riskPayload
       = Some (Js.Math_min (Signal.size_pct signalPayload) 5)
    /\ Execution.strategy o
       = (if Js.gt (Signal.size_pct signalPayload) 3 then "TWAP" else "LIMIT")
    /\ Execution.notes o
       = [Lit (Execution.strategy o); Lit " over 30 min. Size: ";
          Num (Js.Math_min (Signal.size_pct signalPayload) 5);
          Lit "% of NAV."]
    /\ Execution.limit_price o = Signal.entry_price signalPayload
    /\ Execution.venue o = "PAPER_EXCHANGE".
Proof.
  intros riskPayload V.
  assert (A : Risk.adjusted_size_pct riskPayload
              = Some (Js.Math_min (Signal.size_pct signalPayload) 5)).
  { unfold riskPayload, runRiskManager in *.
    cbn [Risk.veto Risk.adjusted_size_pct] in *. now rewrite V. }
  unfold runExecutionAgent. rewrite V, A. cbn [from_option id].
  rewrite bind_eq, ret_eq. cbn [fst snd Math_random].
  eexists. split; [reflexivity|].
  cbn [Execution.strategy Execution.notes Execution.limit_price
       Execution.venue].
  rewrite gt_3_Math_min. repeat split.
Qed.

Lemma execution_after_risk_witness :
  Risk.veto (runRiskManager Sample.signal) = false
  /\ exists o,
       runExecutionAgent Sample.signal (runRiskManager Sample.signal)
         Sample.start
       = (Execution.Order o,
          World (rng Sample.start) (S (drawn Sample.start))
            (calls Sample.start))
       /\ Execution.strategy o = "TWAP".
Proof.
  split; [reflexivity|].
  destruct (execution_after_risk Sample.signal Sample.start eq_refl)
    as (o & E & _ & St & _).
  exists o. split; [exact E|]. rewrite St. reflexivity.
Defined.

(** X8.  A results object that lacks the research or the risk review (or holds
    a falsy value for it) is audited as NON_COMPLIANT, with one flag and an
    incomplete decision chain; the breaker is not triggered, the messages
    counted are the keys present, and one draw is consumed. *)
Theorem runSupervisor_missing (all : results) (w : world) :
  truthy (all !! "researcher") = false
  \/ truthy (all !! "risk_manager") = false ->
  let s := (runSupervisor all w).1 in
  Supervisor.audit_status s = "NON_COMPLIANT"
  /\ Supervisor.flags s = ["Missing research basis or risk review"]
  /\ Supervisor.decision_chain_complete s = false
  /\ Supervisor.circuit_breaker_triggered s = false
  /\ (all !! "risk_manager" = None ->
      Supervisor.human_review_required s = false)
  /\ Supervisor.total_messages_audited s = size all
  /\ (runSupervisor all w).2 = World (rng w) (S (drawn w)) (calls w).
Proof.
  intros H s.
  assert (C : truthy (all !! "researcher") && truthy (all !! "risk_manager")
              = false).
  { destruct H as [-> | ->]; [|rewrite andb_comm]; reflexivity. }
  subst s. unfold runSupervisor. rewrite bind_eq, ret_eq.
  cbn [fst snd Math_random Supervisor.audit_status Supervisor.flags
       Supervisor.decision_chain_complete Supervisor.circuit_breaker_triggered
       Supervisor.human_review_required Supervisor.total_messages_audited].
  rewrite C. repeat split. intros ->. reflexivity.
Qed.

Lemma runSupervisor_missing_witness :
  (truthy ((∅ : results) !! "researcher") = false
   \/ truthy ((∅ : results) !! "risk_manager") = false)
  /\ Supervisor.audit_status (runSupervisor ∅ Sample.start).1
     = "NON_COMPLIANT".
Proof.
  assert (H : truthy ((∅ : results) !! "researcher") = false
              \/ truthy ((∅ : results) !! "risk_manager") = false)
    by (left; reflexivity).
  split; [exact H|].
  exact (proj1 (runSupervisor_missing ∅ Sample.start H)).
Defined.

(* ------------------------------------------------------------------ *)
(** * The orchestrator, further *)

Lemma pause_run base w :
  pause base w = (tt, World (rng w) (S (drawn w)) (calls w)).
Proof. reflexivity. Qed.

Lemma onStep_run key payload done w :
  onStep key payload done w
  = (tt, World (rng w) (drawn w) (calls w ++ [StepCall key payload done])%list).
Proof. reflexivity. Qed.

Lemma runResearcher_world event w :
  (runResearcher event w).2 = World (rng w) (S (drawn w)) (calls w).
Proof. reflexivity. Qed.

Lemma runSupervisor_world all w :
  (runSupervisor all w).2 = World (rng w) (S (drawn w)) (calls w).
Proof. reflexivity. Qed.

Lemma runExecutionAgent_world s r w :
  Risk.veto r = false ->
  (runExecutionAgent s r w).2 = World (rng w) (S (drawn w)) (calls w).
Proof. intros V. unfold runExecutionAgent. now rewrite V. Qed.

(** The payload of the Execution agent does not depend on the calls
    recorded. *)
Lemma runExecutionAgent_calls s r g d c c' :
  (runExecutionAgent s r (World g d c)).1
  = (runExecutionAgent s r (World g d c')).1.
Proof. unfold runExecutionAgent. destruct (Risk.veto r); reflexivity. Qed.

(** The run of the orchestrator, in full: the payloads, the result and
    the world it leaves, the draw of the Researcher being the second one
    and that of the Execution agent the sixth. *)
Lemma runMockPipeline_run (event : Event.t) (w : world) :
  let research :=
    (runResearcher event (World (rng w) (S (drawn w)) (calls w))).1 in
  let signal := runSignalAgent event research in
  let risk := runRiskManager signal in
  let results3 : results :=
    <["risk_manager" := VRisk risk]>
      (<["signal_agent" := VSignal signal]>
         (<["researcher" := VResearch research]> ∅)) in
  let first3 :=
    [StepCall "researcher" (VResearch research) None;
     StepCall "signal_agent" (VSignal signal) None;
     StepCall "risk_manager" (VRisk risk) None] in
  runMockPipeline event w =
    if Risk.veto risk then
      let sup := (runSupervisor results3 w).1 in
      (<["_vetoed" := VBool true]>
         (<["supervisor" := VSupervisor sup]> results3),
       World (rng w) (6 + drawn w)
         (calls w ++ first3
          ++ [StepCall "supervisor" (VSupervisor sup) (Some true)])%list)
    else
      let exec :=
        (runExecutionAgent signal risk
           (World (rng w) (5 + drawn w) (calls w))).1 in
      let results4 := <["execution_agent" := VExecution exec]> results3 in
      let sup := (runSupervisor results4 w).1 in
      (<["_vetoed" := VBool false]>
         (<["status" := VStr "complete"]>
            (<["supervisor" := VSupervisor sup]> results4)),
       World (rng w) (8 + drawn w)
         (calls w ++ first3
          ++ [StepCall "execution_agent" (VExecution exec) None;
              StepCall "supervisor" (VSupervisor sup) (Some true)])%list).
Proof.
  cbv zeta.
  change (5 + drawn w)%nat with (S (S (S (S (S (drawn w)))))).
  change (6 + drawn w)%nat with (S (S (S (S (S (S (drawn w))))))).
  change (8 + drawn w)%nat with (S (S (S (S (S (S (S (S (drawn w))))))))).
  unfold runMockPipeline. rewrite !bind_eq, if_run.
  rewrite !pause_run. cbn [fst snd rng drawn calls].
  rewrite !onStep_run. cbn [fst snd rng drawn calls].
  rewrite !runResearcher_world. cbn [fst snd rng drawn calls].
  match goal with
  | |- context [Risk.veto ?r] => destruct (Risk.veto r) eqn:V
  end.
  - rewrite !bind_eq, ret_eq. rewrite !pause_run. cbn [fst snd rng drawn calls].
    rewrite !onStep_run. cbn [fst snd rng drawn calls].
    rewrite !runSupervisor_world. cbn [fst snd rng drawn calls].
    rewrite <- !app_assoc. reflexivity.
  - rewrite !bind_eq, ret_eq. rewrite !pause_run. cbn [fst snd rng drawn calls].
    rewrite !onStep_run. cbn [fst snd rng drawn calls].
    rewrite !(runExecutionAgent_world _ _ _ V). cbn [fst snd rng drawn calls].
    rewrite !runSupervisor_world. cbn [fst snd rng drawn calls].
    rewrite <- !app_assoc.
    match goal with
    | |- context [runExecutionAgent ?s ?r (World ?g ?d (?c ++ ?l)%list)] =>
        rewrite !(runExecutionAgent_calls s r g d (c ++ l)%list c)
    end.
    reflexivity.
Qed.

(** Puts the run in its full form and splits on the veto. *)
Ltac run_in_full event w :=
  let R := fresh "R" in
  pose proof (runMockPipeline_run event w) as R; cbv zeta in R;
  rewrite !R; clear R;
  match goal with
  | |- context [Risk.veto ?r] =>
      let V := fresh "V" in
      destruct (Risk.veto r) eqn:V;
      cbn [fst snd rng drawn calls]; lookup_results; cbn [veto_of];
      rewrite ?V
  end.

(** X9.  How much of the random source a run uses: the source itself is left
    as it is, and six draws are consumed when the Risk stage vetoes, eight
    when it does not (one for each delay, one each for the Researcher, the
    Execution agent and the Supervisor). *)
Theorem runMockPipeline_draws (event : Event.t) (w : world) :
  let run := runMockPipeline event w in
  rng run.2 = rng w
  /\ drawn run.2
     = (if veto_of (run.1 !! "risk_manager") then 6 + drawn w
        else 8 + drawn w)%nat.
Proof.
  cbv zeta. run_in_full event w; split; reflexivity.
Qed.

(** X10.  The steps a run reports: the callback is called once for each agent
    that ran, in the order Researcher, Signal agent, Risk Manager,
    Execution agent (unless vetoed), Supervisor; each call passes the
    payload that the result holds under the key of the agent; and the
    third argument is given, as [true], for the Supervisor only. *)
Theorem runMockPipeline_steps (event : Event.t) (w : world) :
  let run := runMockPipeline event w in
  exists steps,
    calls run.2 = (calls w ++ steps)%list
    /\ map call_key steps
       = (if veto_of (run.1 !! "risk_manager")
          then ["researcher"; "signal_agent"; "risk_manager"; "supervisor"]
          else ["researcher"; "signal_agent"; "risk_manager";
                "execution_agent"; "supervisor"])
    /\ Forall (fun c => run.1 !! call_key c = Some (call_payload c)) steps
    /\ Forall (fun c =>
                 call_done c
                 = if String.eqb (call_key c) "supervisor" then Some true
                   else None) steps.
Proof.
  cbv zeta. run_in_full event w.
  - eexists. split; [reflexivity|]. split; [reflexivity|].
    split; repeat constructor; cbn [call_key call_payload]; by lookup_results.
  - eexists. split; [reflexivity|]. split; [reflexivity|].
    split; repeat constructor; cbn [call_key call_payload]; by lookup_results.
Qed.

(** X11.  The keys of the result: the payloads of the agents that ran and the
    flag [_vetoed], with [status] as well when there was no veto, and no
    other key. *)
Theorem runMockPipeline_keys (event : Event.t) (w : world) :
  let res := (runMockPipeline event w).1 in
  dom res
  = (if veto_of (res !! "risk_manager")
     then list_to_set ["researcher"; "signal_agent"; "risk_manager";
                       "supervisor"; "_vetoed"]
     else list_to_set ["researcher"; "signal_agent"; "risk_manager";
                       "execution_agent"; "supervisor"; "status"; "_vetoed"]
     : gset string).
Proof.
  cbv zeta. run_in_full event w;
    rewrite !dom_insert_L, dom_empty_L; cbn [list_to_set foldr];
    set_solver.
Qed.

(** X12.  The audit of a run: whatever the event and the draws, the Supervisor
    finds the decision chain complete and the run COMPLIANT, raises no
    flag and does not trigger the breaker; it asks for a human review
    exactly when the Risk stage vetoed; and the messages it counts are the
    payloads stored before its own, three after a veto and four
    otherwise. *)
Theorem runMockPipeline_audit (event : Event.t) (w : world) :
  let res := (runMockPipeline event w).1 in
  exists sup,
    res !! "supervisor" = Some (VSupervisor sup)
    /\ Supervisor.audit_status sup = "COMPLIANT"
    /\ Supervisor.decision_chain_complete sup = true
    /\ Supervisor.flags sup = []
    /\ Supervisor.circuit_breaker_triggered sup = false
    /\ Supervisor.human_review_required sup = veto_of (res !! "risk_manager")
    /\ res !! "_vetoed" = Some (VBool (Supervisor.human_review_required sup))
    /\ Supervisor.total_messages_audited sup
       = (if veto_of (res !! "risk_manager") then 3 else 4)%nat.
Proof.
  cbv zeta. run_in_full event w.
  - eexists. split; [reflexivity|]. unfold runSupervisor.
    rewrite bind_eq, ret_eq.
    cbn [fst Supervisor.audit_status Supervisor.decision_chain_complete
         Supervisor.flags Supervisor.circuit_breaker_triggered
         Supervisor.human_review_required Supervisor.total_messages_audited].
    lookup_results. cbn [truthy andb veto_of]. rewrite V.
    repeat split.
  - eexists. split; [reflexivity|]. unfold runSupervisor.
    rewrite bind_eq, ret_eq.
    cbn [fst Supervisor.audit_status Supervisor.decision_chain_complete
         Supervisor.flags Supervisor.circuit_breaker_triggered
         Supervisor.human_review_required Supervisor.total_messages_audited].
    lookup_results. cbn [truthy andb veto_of]. rewrite V.
    repeat split.
Qed.

(** The size that the Signal agent draws from a confidence of the
    Researcher: between 7.8 and 8, hence above the cap of 5. *)
Lemma researched_size (r : float) :
  (0 <=? r)%float = true -> (r <? 1)%float = true ->
  let confidence := Js.round (0.65 + r * 0.28) 2 in
  let size := Js.round (Js.Math_min (confidence * 12) 8) 1 in
  Js.le 7.8 size && Js.le size 8 && Js.gt size 5 = true.
Proof.
  intros H0 H1 confidence size. subst size confidence.
  pose proof (parseFloat_toFixed_in
                (fun y =>
                   let size := Js.round (Js.Math_min (y * 12) 8) 1 in
                   Js.le 7.8 size && Js.le size 8 && Js.gt size 5)
                (0.65 + r * 0.28)%float 2 (exact 0.65) (exact 0.93)) as K.
  cbv beta zeta in K. apply K; clear K.
  - apply (add_const 0.65 (r * 0.28) 0.65 0.93 0 (exact 0.28)).
    + reflexivity.
    + reflexivity.
    + reflexivity.
    + apply (mul_const r 0.28 0.28 1).
      * reflexivity.
      * Qsolve.
      * reflexivity.
      * now apply unit_interval.
      * Qsolve.
    + Qsolve.
    + Qsolve.
    + Qsolve.
  - Qsolve.
  - Qsolve.
  - vm_compute; reflexivity.
Qed.

Lemma runExecutionAgent_strategy (s : Signal.t) (w : world) :
  Risk.veto (runRiskManager s) = false ->
  exists o,
    (runExecutionAgent s (runRiskManager s) w).1 = Execution.Order o
    /\ Execution.strategy o
       = if Js.gt (Signal.size_pct s) 3 then "TWAP" else "LIMIT".
Proof.
  intros V. unfold runExecutionAgent. rewrite V.
  unfold runRiskManager in *. cbn [Risk.veto Risk.adjusted_size_pct] in *.
  rewrite V. cbn [from_option id]. rewrite bind_eq, ret_eq. cbn [fst].
  eexists. split; [reflexivity|]. cbn [Execution.strategy].
  unfold MAX_POS. now rewrite gt_3_Math_min.
Qed.

(** X13.  What the sizes of the pipeline entail.  With draws in the unit
    interval the confidence is at least 0.65, so that the size of the
    signal lies between 7.8 and 8, above the cap: the position limit is
    never reported as met and the verdict is never the plain APPROVED; a
    trade that is not vetoed is always APPROVED_WITH_CONDITIONS, scaled to
    exactly 5, and executed by TWAP, never by LIMIT. *)
Theorem pipeline_always_scaled (event : Event.t) (w : world) :
  unit_draws (rng w) ->
  let res := (runMockPipeline event w).1 in
  exists signal risk,
    res !! "signal_agent" = Some (VSignal signal)
    /\ res !! "risk_manager" = Some (VRisk risk)
    /\ Js.le 7.8 (Signal.size_pct signal) = true
    /\ Js.le (Signal.size_pct signal) 8 = true
    /\ Risk.position_limit_ok (Risk.risk_metrics risk) = false
    /\ Risk.verdict risk <> "APPROVED"
    /\ (Risk.veto risk = false ->
        Risk.verdict risk = "APPROVED_WITH_CONDITIONS"
        /\ Risk.adjusted_size_pct risk = Some 5%float
        /\ exists o,
             res !! "execution_agent" = Some (VExecution (Execution.Order o))
             /\ Execution.strategy o = "TWAP").
Proof.
  intros U. cbv zeta.
  destruct (U (S (drawn w))) as [H0 H1].
  pose proof (researched_size _ H0 H1) as R. cbv zeta in R.
  apply andb_prop in R as [R G5]. apply andb_prop in R as [R1 R2].
  pose proof (gt_5_gt_3 _ G5) as G3.
  set (research :=
         (runResearcher event (World (rng w) (S (drawn w)) (calls w))).1) in *.
  set (signal := runSignalAgent event research).
  change (Js.le 7.8 (Signal.size_pct signal) = true) in R1.
  change (Js.le (Signal.size_pct signal) 8 = true) in R2.
  change (Js.gt (Signal.size_pct signal) 5 = true) in G5.
  change (Js.gt (Signal.size_pct signal) 3 = true) in G3.
  assert (N : is_nan (Signal.size_pct signal) = false)
    by (apply (ltb_not_nan _ _ G5)).
  exists signal, (runRiskManager signal).
  assert (L : Risk.position_limit_ok (Risk.risk_metrics (runRiskManager signal))
              = false).
  { unfold runRiskManager. cbn [Risk.risk_metrics Risk.position_limit_ok].
    unfold Js.le, MAX_POS. rewrite (leb_negb_ltb _ 5 N eq_refl).
    unfold Js.gt in G5. now rewrite G5. }
  assert (A : Risk.verdict (runRiskManager signal) <> "APPROVED"
              /\ (Risk.veto (runRiskManager signal) = false ->
                  Risk.verdict (runRiskManager signal)
                  = "APPROVED_WITH_CONDITIONS"
                  /\ Risk.adjusted_size_pct (runRiskManager signal)
                     = Some 5%float)).
  { unfold runRiskManager. cbn [Risk.verdict Risk.veto Risk.adjusted_size_pct].
    unfold MAX_POS. rewrite G5, (Math_min_above _ _ G5).
    destruct (Js.gt (Signal.size_pct signal) 20
              || String.eqb (Signal.action signal) "HOLD");
      split; try discriminate; intros; split; congruence. }
  destruct A as [A1 A2].
  split; [subst signal research; run_in_full event w; reflexivity|].
  split; [subst signal research; run_in_full event w; reflexivity|].
  split; [exact R1|]. split; [exact R2|]. split; [exact L|].
  split; [exact A1|].
  intros V. destruct (A2 V) as [A3 A4]. split; [exact A3|].
  split; [exact A4|].
  destruct (runExecutionAgent_strategy signal
              (World (rng w) (5 + drawn w) (calls w)) V) as (o & E & St).
  exists o. rewrite G3 in St. split; [|exact St].
  rewrite <- E. subst signal research.
  pose proof (runMockPipeline_run event w) as F; cbv zeta in F.
  rewrite F. rewrite V. cbn [fst]. by lookup_results.
Qed.

Lemma pipeline_always_scaled_witness :
  unit_draws (rng Sample.start)
  /\ exists signal,
       (runMockPipeline Sample.nvda Sample.start).1 !! "signal_agent"
       = Some (VSignal signal)
       /\ Js.le 7.8 (Signal.size_pct signal) = true.
Proof.
  assert (U : unit_draws (rng Sample.start)).
  { intros i. destruct i as [|[|i]]; split; reflexivity. }
  split; [exact U|].
  destruct (pipeline_always_scaled Sample.nvda Sample.start U)
    as (signal & risk & E & _ & L & _).
  exists signal. split; assumption.
Defined.

(** X27.  The Execution agent is run only for a trade that passed the
    Risk stage: the result holds an execution payload exactly when there
    was no veto, and that payload is an order with the status
    SIMULATED_FILL, never the REJECTED answer; its limit price is the entry
    price of the signal, which is the price of the ticker's profile. *)
Theorem pipeline_execution (event : Event.t) (w : world) :
  let res := (runMockPipeline event w).1 in
  match res !! "execution_agent" with
  | None => veto_of (res !! "risk_manager") = true
  | Some payload =>
      veto_of (res !! "risk_manager") = false
      /\ exists o signal,
           payload = VExecution (Execution.Order o)
           /\ res !! "signal_agent" = Some (VSignal signal)
           /\ Execution.status o = "SIMULATED_FILL"
           /\ Execution.limit_price o = Signal.entry_price signal
           /\ Execution.limit_price o
              = Profile.price (getProfile (Event.ticker event))
  end.
Proof.
  cbv zeta. run_in_full event w; [reflexivity|].
  split; [reflexivity|].
  unfold runExecutionAgent. rewrite V, bind_eq, ret_eq. cbn [fst].
  eexists _, _. split; [reflexivity|]. split; [reflexivity|].
  repeat split.
Qed.

(* ------------------------------------------------------------------ *)
(** * The API service, further *)

Local Open Scope Z_scope.

Lemma string_of_Z_inj n n' : Js.string_of_Z n = Js.string_of_Z n' -> n = n'.
Proof.
  unfold Js.string_of_Z. intros H. apply DecimalZ.to_int_inj.
  assert (I : forall z, NilZero.int_of_string
                          (NilZero.string_of_int (Z.to_int z))
                        = Some (Z.to_int z)).
  { intros z. apply NilZero.isi; destruct z as [|p|p]; cbn;
      intros [= E]; exact (DecimalPos.Unsigned.to_uint_nonnil p E). }
  pose proof (I n) as In. rewrite H, I in In. congruence.
Qed.

(** X14.  The run identifier tells the time of the dispatch: two dispatches
    that return the same identifier were made in the same millisecond,
    whatever the event, the token and the network. *)
Theorem dispatch_run_id_time (cfg cfg' : config) (now now' : Z)
    (net net' : Dispatch.request -> Dispatch.outcome)
    (event event' : Event.t) (token token' runId : string) :
  (dispatchPipeline cfg now net event token).1 = Returned runId ->
  (dispatchPipeline cfg' now' net' event' token').1 = Returned runId ->
  runId = ("run-" ++ Js.string_of_Z now)%string /\ now = now'.
Proof.
  unfold dispatchPipeline.
  repeat match goal with
         | |- context [net ?q] => destruct (net q) as [?|?]
         | |- context [net' ?q] => destruct (net' q) as [?|?]
         | |- context [status_ok ?s] => destruct (status_ok s)
         end; cbn [negb fst]; try discriminate.
  intros [= <-] [= E]. split; [reflexivity|].
  symmetry. exact (string_of_Z_inj _ _ E).
Qed.

Lemma dispatch_run_id_time_witness :
  (dispatchPipeline Sample.cfg 5
     (fun _ => Dispatch.Responded (Dispatch.mk_response 204 None))
     Sample.nvda "token").1 = Returned "run-5"%string
  /\ "run-5"%string = ("run-" ++ Js.string_of_Z 5)%string.
Proof.
  assert (H : (dispatchPipeline Sample.cfg 5
                 (fun _ => Dispatch.Responded (Dispatch.mk_response 204 None))
                 Sample.nvda "token").1 = Returned "run-5"%string)
    by reflexivity.
  split; [exact H|].
  exact (proj1 (dispatch_run_id_time _ _ _ _ _ _ _ _ _ _ _ H H)).
Defined.


(** X16.  The index of the runs is always returned, never an error: the
    document of a 2xx response whose body can be read, and the empty
    array in every other case (a request that fails, another status, a
    body that cannot be read); one request is sent, to the index with the
    time as parameter. *)
Theorem loadRunsIndex_total (now : Z) (net : string -> Load.outcome) :
  let url := ("./data/runs-index.json?t=" ++ Js.string_of_Z now)%string in
  exists document,
    loadRunsIndex now net = (Returned document, [url])
    /\ (forall resp d,
          net url = Load.Responded resp ->
          200 <= Load.status resp <= 299 ->
          Load.json_of resp = Load.Parsed d -> document = d)
    /\ (document <> JArray [] ->
        exists resp,
          net url = Load.Responded resp
          /\ 200 <= Load.status resp <= 299
          /\ Load.json_of resp = Load.Parsed document).
Proof.
  intros url. unfold loadRunsIndex. fold url.
  destruct (net url) as [e|resp] eqn:N; cbn [catch_return].
  - eexists. split; [reflexivity|]. split; [discriminate|]. congruence.
  - destruct (status_ok (Load.status resp)) eqn:S; cbn [negb catch_return].
    + apply status_ok_iff in S.
      destruct (Load.json_of resp) as [e|d] eqn:J; cbn [catch_return];
        eexists; (split; [reflexivity|]); split.
      * intros r d [= <-]. congruence.
      * congruence.
      * intros r d' [= <-] _. congruence.
      * intros _. exists resp. repeat split; (lia || assumption).
    + eexists. split; [reflexivity|]. split; [|congruence].
      intros r d [= <-] H. apply status_ok_iff in H. congruence.
Qed.

(** X17.  A saved run is returned exactly when the request is answered with a
    2xx response whose body can be read; any other status raises 'Run
    <id> not found', and a request that fails or a body that cannot be
    read raises its own error; one request is sent, to the file of the
    run with the time as parameter. *)
Theorem loadRun_spec (now : Z) (net : string -> Load.outcome)
    (runId : string) :
  let url :=
    ("./data/pipeline-" ++ runId ++ ".json?t=" ++ Js.string_of_Z now)%string in
  let r := (loadRun now net runId).1 in
  (loadRun now net runId).2 = [url]
  /\ (forall d,
        r = Returned d <->
        exists resp,
          net url = Load.Responded resp
          /\ 200 <= Load.status resp <= 299
          /\ Load.json_of resp = Load.Parsed d)
  /\ (forall resp,
        net url = Load.Responded resp ->
        ~ 200 <= Load.status resp <= 299 ->
        r = Thrown (Error ("Run " ++ runId ++ " not found")%string))
  /\ (forall e, net url = Load.Failed e -> r = Thrown e)
  /\ (forall resp e,
        net url = Load.Responded resp ->
        200 <= Load.status resp <= 299 ->
        Load.json_of resp = Load.Invalid e -> r = Thrown e).
Proof.
  intros url r. subst r. unfold loadRun. fold url. cbn [fst snd].
  split; [reflexivity|].
  destruct (net url) as [e|resp] eqn:N.
  - split; [|split; [|split]]; try congruence.
    intros d. split; [discriminate|]. intros (r & [=] & _).
  - destruct (status_ok (Load.status resp)) eqn:S; cbn [negb].
    + apply status_ok_iff in S. split; [|split; [|split]].
      * intros d. split.
        -- intros E. exists resp. split; [reflexivity|]. split; [exact S|].
           destruct (Load.json_of resp); congruence.
        -- intros (r & [= <-] & _ & ->). reflexivity.
      * intros r [= <-] H. contradiction.
      * discriminate.
      * intros r e [= <-] _ ->. reflexivity.
    + assert (Hn : ~ 200 <= Load.status resp <= 299).
      { intros H. apply status_ok_iff in H. congruence. }
      split; [|split; [|split]].
      * intros d. split; [discriminate|].
        intros (r & [= <-] & H & _). contradiction.
      * reflexivity.
      * discriminate.
      * intros r e [= <-] H. contradiction.
Qed.

(** X18.  The token of the session: what is saved is what is loaded; a token is
    held exactly when the one saved is not empty; a second save replaces
    the first; and no other key of the storage is touched. *)
Theorem token_round_trip (token : string) (sessionStorage : storage) :
  loadToken (saveToken token sessionStorage) = token
  /\ (hasToken (saveToken token sessionStorage) = true <-> token <> ""%string)
  /\ (forall token',
        saveToken token' (saveToken token sessionStorage)
        = saveToken token' sessionStorage)
  /\ (forall key,
        key <> TOKEN_KEY ->
        saveToken token sessionStorage !! key = sessionStorage !! key).
Proof.
  unfold hasToken, loadToken, saveToken. rewrite lookup_insert_eq.
  cbn [from_option id]. split; [reflexivity|]. split; [|split].
  - rewrite negb_true_iff. apply String.eqb_neq.
  - intros token'. apply insert_insert_eq.
  - intros key H. now apply lookup_insert_ne.
Qed.

(** X19.  Clearing the token: none is held afterwards and the empty string is
    loaded, whatever was saved before; a storage without token is left as
    it is; and no other key is touched. *)
Theorem token_cleared (sessionStorage : storage) :
  loadToken (clearToken sessionStorage) = ""%string
  /\ hasToken (clearToken sessionStorage) = false
  /\ (forall token,
        clearToken (saveToken token sessionStorage)
        = clearToken sessionStorage)
  /\ (sessionStorage !! TOKEN_KEY = None ->
      clearToken sessionStorage = sessionStorage)
  /\ (forall key,
        key <> TOKEN_KEY ->
        clearToken sessionStorage !! key = sessionStorage !! key).
Proof.
  unfold hasToken, loadToken, clearToken, saveToken. rewrite lookup_delete_eq.
  cbn [from_option id]. split; [reflexivity|]. split; [reflexivity|].
  split; [|split].
  - intros token. apply delete_insert_eq.
  - apply delete_id.
  - intros key H. now apply lookup_delete_ne.
Qed.





(** X21.  With a wait that is zero or negative the poll gives up at once: the
    timeout is raised without a sleep, a ping or a request. *)
Theorem pollForResult_no_wait (fuel : nat) (script : nat -> Poll.tick)
    (start : Z) (runId : string) (o : Poll.opts) :
  default 120000 (Poll.maxWaitMs o) <= 0 ->
  pollForResult (S fuel) script start runId o
  = Some (Thrown timeout_error, []).
Proof.
  intros H. unfold pollForResult. cbn [poll_loop].
  destruct (Z.ltb_spec start (start + default 120000 (Poll.maxWaitMs o)));
    [lia|reflexivity].
Qed.

Lemma pollForResult_no_wait_witness :
  default 120000 (Poll.maxWaitMs (Poll.mk_opts (Some 0) None)) <= 0
  /\ pollForResult 1 Sample.ready 0 "run-0" (Poll.mk_opts (Some 0) None)
     = Some (Thrown timeout_error, []).
Proof.
  assert (H : default 120000 (Poll.maxWaitMs (Poll.mk_opts (Some 0) None)) <= 0)
    by (cbn; lia).
  split; [exact H|].
  exact (pollForResult_no_wait 0 Sample.ready 0 "run-0" _ H).
Defined.

Section PollTimes.
Variable script : nat -> Poll.tick.
Variable url : string.
Variables deadline intervalMs start : Z.

(** The requests of a loop entered at a turn are those of the turns from
    it on, however the loop ends. *)
Lemma poll_loop_times fuel : forall k log r log',
  poll_loop fuel script url deadline intervalMs k
    (turn_time script intervalMs start k) log = Some (r, log') ->
  exists n,
    fetch_times log'
    = (fetch_times log
       ++ map (fetch_time script intervalMs start) (seq k n))%list.
Proof.
  induction fuel as [|fuel IH]; intros k log r log' H; [discriminate|].
  rewrite poll_loop_step in H.
  destruct (Z.ltb (turn_time script intervalMs start k) deadline).
  2: { injection H as <- <-. exists 0%nat. cbn. now rewrite app_nil_r. }
  cbv zeta in H. destruct (answer (script k)).
  - injection H as <- <-. exists 1%nat. rewrite fetch_times_app. reflexivity.
  - apply IH in H as [n Hn]. exists (S n).
    rewrite Hn, fetch_times_app, <- app_assoc. reflexivity.
Qed.

End PollTimes.

(** X26.  The poll keeps its pace: when timers are not early and requests
    take time, the first request is sent no sooner than one interval
    after the start, and each further one no sooner than one interval
    after the one before. *)
Theorem pollForResult_spacing (fuel : nat) (script : nat -> Poll.tick)
    (start : Z) (runId : string) (o : Poll.opts)
    (r : result results) (log : list Poll.event) :
  let intervalMs := default 3000 (Poll.intervalMs o) in
  causal script -> 0 < intervalMs ->
  pollForResult fuel script start runId o = Some (r, log) ->
  (forall t, fetch_times log !! 0%nat = Some t -> start + intervalMs <= t)
  /\ (forall i t t',
        fetch_times log !! i = Some t ->
        fetch_times log !! S i = Some t' -> t + intervalMs <= t').
Proof.
  intros intervalMs Hc HI H. unfold pollForResult in H. fold intervalMs in H.
  apply (poll_loop_times script _ _ intervalMs start fuel 0%nat) in H
    as [n Hn].
  clearbody intervalMs.
  change (fetch_times []) with (@nil Z) in Hn. cbn [app] in Hn. rewrite Hn.
  assert (L : forall i t,
            map (fetch_time script intervalMs start) (seq 0 n) !! i = Some t ->
            t = fetch_time script intervalMs start i).
  { intros i t E. rewrite list_lookup_fmap in E.
    destruct (seq 0 n !! i) as [j|] eqn:J; [|discriminate].
    apply lookup_seq in J as [-> _]. now injection E as <-. }
  split.
  - intros t E. apply L in E as ->. unfold fetch_time. cbn [turn_time].
    destruct (Hc 0%nat). lia.
  - intros i t t' E E'. apply L in E as ->. apply L in E' as ->.
    unfold fetch_time. cbn [turn_time].
    destruct (Hc i), (Hc (S i)). lia.
Qed.

Lemma pollForResult_spacing_witness :
  causal Sample.ready /\ 0 < 3000
  /\ pollForResult 41 Sample.ready 0 "run-0" Sample.defaults
     = Some (Returned Sample.complete_run,
             turn_events "./data/pipeline-run-0.json?t=0" 120000 3000)
  /\ forall t,
       fetch_times (turn_events "./data/pipeline-run-0.json?t=0" 120000 3000)
         !! 0%nat = Some t ->
       0 + 3000 <= t.
Proof.
  assert (H : pollForResult 41 Sample.ready 0 "run-0" Sample.defaults
              = Some (Returned Sample.complete_run,
                      turn_events "./data/pipeline-run-0.json?t=0" 120000 3000))
    by (vm_compute; reflexivity).
  split; [exact causal_ready|]. split; [lia|]. split; [exact H|].
  exact (proj1 (pollForResult_spacing 41 Sample.ready 0 "run-0"
                  Sample.defaults _ _ causal_ready ltac:(cbn; lia) H)).
Defined.

(* ------------------------------------------------------------------ *)
(** * The audit log and the tags of the steps *)

Local Open Scope string_scope.

Lemma take_cons_take {A} (n : nat) (x : A) (l : list A) :
  take (S n) (x :: take (S n) l) = take (S n) (x :: l).
Proof.
  cbn [take]. f_equal. rewrite take_take. f_equal. lia.
Qed.

Lemma saveAuditEntry_entries {entry} (e : entry)
    (localStorage : gmap string (list entry)) :
  getAuditEntries (saveAuditEntry e localStorage)
  = take 200 (e :: getAuditEntries localStorage).
Proof.
  unfold saveAuditEntry, getAuditEntries at 1. rewrite lookup_insert_eq.
  cbn [from_option id].
  destruct (Nat.ltb_spec 200 (length (e :: getAuditEntries localStorage)))
    as [L|L]; [reflexivity|].
  symmetry. now apply take_ge.
Qed.

(** X22.  The audit log is bounded: after an entry is saved the log holds at
    most 200 entries, the new one first and the older ones after it in
    their order, those beyond the 200th being dropped; no other key of
    the storage is touched. *)
Theorem saveAuditEntry_bounded {entry} (e : entry)
    (localStorage : gmap string (list entry)) :
  let saved := getAuditEntries (saveAuditEntry e localStorage) in
  saved = e :: take 199 (getAuditEntries localStorage)
  /\ (length saved <= 200)%nat
  /\ (length (getAuditEntries localStorage) < 200 ->
      saved = e :: getAuditEntries localStorage)%nat
  /\ (forall key,
        key <> AUDIT_KEY ->
        saveAuditEntry e localStorage !! key = localStorage !! key).
Proof.
  cbv zeta. rewrite saveAuditEntry_entries.
  split; [reflexivity|]. split; [|split].
  - rewrite length_take. lia.
  - intros H. cbn [take]. f_equal. apply take_ge. lia.
  - intros key H. unfold saveAuditEntry. now apply lookup_insert_ne.
Qed.

Lemma saveAuditEntries_cons {entry} (e : entry) (entries : list entry)
    (localStorage : gmap string (list entry)) :
  saveAuditEntries (e :: entries) localStorage
  = saveAuditEntry e (saveAuditEntries entries localStorage).
Proof.
  unfold saveAuditEntries. cbn [rev]. now rewrite fold_left_app.
Qed.

(** X23.  The entries of a run are saved last to first, so that they head the
    log in their own order, before what the log held, the whole cut to
    200 entries. *)
Theorem saveAuditEntries_order {entry} (entries : list entry)
    (localStorage : gmap string (list entry)) :
  entries <> [] ->
  getAuditEntries (saveAuditEntries entries localStorage)
  = take 200 (entries ++ getAuditEntries localStorage).
Proof.
  induction entries as [|e entries IH]; [congruence|]. intros _.
  rewrite saveAuditEntries_cons, saveAuditEntry_entries.
  destruct entries as [|e' entries]; [reflexivity|].
  rewrite IH by discriminate. apply take_cons_take.
Qed.

Lemma saveAuditEntries_order_witness :
  [1; 2; 3]%Z <> []
  /\ getAuditEntries (saveAuditEntries [1; 2; 3]%Z (<[AUDIT_KEY := [4]%Z]> ∅))
     = [1; 2; 3; 4]%Z.
Proof.
  assert (H : [1; 2; 3]%Z <> []) by discriminate.
  split; [exact H|].
  rewrite (saveAuditEntries_order [1; 2; 3]%Z (<[AUDIT_KEY := [4]%Z]> ∅) H).
  reflexivity.
Defined.

Lemma display_researcher p d :
  step_display (StepCall "researcher" (VResearch p) d)
  = ("done", or_else (Some (Research.signal p)) "DONE",
     if String.eqb (Research.signal p) "BEARISH" then "bearish"
     else if String.eqb (Research.signal p) "BULLISH" then "bullish" else "").
Proof. reflexivity. Qed.

Lemma display_signal p d :
  step_display (StepCall "signal_agent" (VSignal p) d)
  = ("done", or_else (Some (Signal.action p)) "DONE",
     if String.eqb (Signal.action p) "SHORT" then "bearish"
     else if String.eqb (Signal.action p) "LONG" then "bullish" else "").
Proof. reflexivity. Qed.

Lemma display_risk s d :
  step_display (StepCall "risk_manager" (VRisk (runRiskManager s)) d)
  = if Risk.veto (runRiskManager s) then ("vetoed", "VETOED", "vetoed")
    else ("done", "APPROVED", "approved").
Proof.
  unfold step_display. cbn [call_key call_payload veto_of].
  change (String.eqb "risk_manager" "risk_manager") with true. cbn [andb].
  destruct (Risk.veto (runRiskManager s)) eqn:V; [reflexivity|].
  unfold deriveTagClass, deriveTagText.
  change (String.eqb "risk_manager" "researcher") with false.
  change (String.eqb "risk_manager" "signal_agent") with false.
  change (String.eqb "risk_manager" "risk_manager") with true.
  cbv iota. cbn [veto_of]. rewrite V. lookup_results.
  cbn [from_option id verdict_of].
  unfold runRiskManager in *. cbn [Risk.veto Risk.verdict] in *. rewrite V.
  destruct (Js.gt (Signal.size_pct s) MAX_POS); reflexivity.
Qed.

Lemma display_execution o d :
  Execution.status o = "SIMULATED_FILL" ->
  step_display (StepCall "execution_agent" (VExecution (Execution.Order o)) d)
  = ("done", "SIMULATED_FILL", "approved").
Proof.
  intros H. unfold step_display, deriveTagClass, deriveTagText.
  cbn [call_key call_payload veto_of status_of is_str].
  change (String.eqb "execution_agent" "researcher") with false.
  change (String.eqb "execution_agent" "signal_agent") with false.
  change (String.eqb "execution_agent" "risk_manager") with false.
  change (String.eqb "execution_agent" "execution_agent") with true.
  cbv iota. cbn [andb]. lookup_results. rewrite H. reflexivity.
Qed.

Lemma display_supervisor p d :
  Supervisor.audit_status p = "COMPLIANT" ->
  step_display (StepCall "supervisor" (VSupervisor p) d)
  = ("done", "COMPLIANT", "compliant").
Proof.
  intros H. unfold step_display, deriveTagClass, deriveTagText.
  cbn [call_key call_payload veto_of audit_status_of is_str].
  change (String.eqb "supervisor" "researcher") with false.
  change (String.eqb "supervisor" "signal_agent") with false.
  change (String.eqb "supervisor" "risk_manager") with false.
  change (String.eqb "supervisor" "execution_agent") with false.
  change (String.eqb "supervisor" "supervisor") with true.
  cbv iota. cbn [andb]. lookup_results. rewrite H. reflexivity.
Qed.

(** What of a profile the tags of the first two cards show. *)
Lemma profile_tags ticker :
  let profile := getProfile ticker in
  let bias := Profile.bias profile in
  let action :=
    if String.eqb bias "BULLISH" then "LONG"
    else if String.eqb bias "BEARISH" then "SHORT" else "HOLD" in
  let colour :=
    if String.eqb bias "BEARISH" then "bearish"
    else if String.eqb bias "BULLISH" then "bullish" else "" in
  or_else (Some bias) "DONE" = bias
  /\ or_else (Some action) "DONE" = Profile.action profile
  /\ (if String.eqb action "SHORT" then "bearish"
      else if String.eqb action "LONG" then "bullish" else "") = colour.
Proof.
  cbv zeta. pattern (getProfile ticker).
  apply forall_profiles;
    [|unfold known_tickers;
      repeat first [apply List.Forall_cons | apply List.Forall_nil]];
    vm_compute; repeat split.
Qed.

(** X24.  What the cards of a mock run show.  The Researcher and the Signal
    agent show the bias and the action of the ticker's profile, in the
    same colour; the Risk Manager shows VETOED, or APPROVED (also when it
    approved with conditions); the Execution agent, which appears without
    a veto only, shows SIMULATED_FILL as approved; and the Supervisor
    always shows COMPLIANT: the fallback text DONE, the class 'warning' and
    a vetoed execution are never shown. *)
Theorem mock_run_display (event : Event.t) (w : world) :
  let run := runMockPipeline event w in
  let profile := getProfile (Event.ticker event) in
  let colour :=
    if String.eqb (Profile.bias profile) "BEARISH" then "bearish"
    else if String.eqb (Profile.bias profile) "BULLISH" then "bullish"
    else "" in
  exists steps,
    calls run.2 = (calls w ++ steps)%list
    /\ map step_display steps
       = ([("done", Profile.bias profile, colour);
           ("done", Profile.action profile, colour)]
          ++ (if veto_of (run.1 !! "risk_manager")
              then [("vetoed", "VETOED", "vetoed")]
              else [("done", "APPROVED", "approved");
                    ("done", "SIMULATED_FILL", "approved")])
          ++ [("done", "COMPLIANT", "compliant")])%list.
Proof.
  cbv zeta.
  destruct (profile_tags (Event.ticker event)) as (T1 & T2 & T3).
  cbv zeta in T1, T2, T3.
  run_in_full event w.
  - eexists. split; [reflexivity|]. cbn [map app].
    rewrite display_researcher, display_signal, display_risk, V.
    rewrite display_supervisor
      by (rewrite runSupervisor_audit; by lookup_results).
    change (Research.signal
              (runResearcher event (World (rng w) (S (drawn w)) (calls w))).1)
      with (Profile.bias (getProfile (Event.ticker event))).
    unfold runSignalAgent at 1 2 3. cbn [Signal.action].
    change (Research.signal
              (runResearcher event (World (rng w) (S (drawn w)) (calls w))).1)
      with (Profile.bias (getProfile (Event.ticker event))).
    rewrite T1, T2, T3. reflexivity.
  - eexists. split; [reflexivity|]. cbn [map app].
    rewrite display_researcher, display_signal, display_risk, V.
    rewrite display_supervisor
      by (rewrite runSupervisor_audit; by lookup_results).
    change (Research.signal
              (runResearcher event (World (rng w) (S (drawn w)) (calls w))).1)
      with (Profile.bias (getProfile (Event.ticker event))).
    unfold runSignalAgent at 1 2 3. cbn [Signal.action].
    change (Research.signal
              (runResearcher event (World (rng w) (S (drawn w)) (calls w))).1)
      with (Profile.bias (getProfile (Event.ticker event))).
    rewrite T1, T2, T3.
    match goal with
    | |- context [runExecutionAgent ?s ?r ?w0] =>
        unfold runExecutionAgent; rewrite V; rewrite bind_eq, ret_eq;
        cbn [fst]
    end.
    rewrite display_execution by reflexivity. reflexivity.
Qed.

Lemma on_mock_step_other v key payload d :
  String.eqb key "risk_manager" = false ->
  on_mock_step v (StepCall key payload d)
  = MockVars (vetoed v) (vetoCount v) (<[key := payload]> (allPayloads v)).
Proof.
  intros H. unfold on_mock_step. cbn [call_key call_payload]. now rewrite H.
Qed.

Lemma on_mock_step_risk v r d :
  on_mock_step v (StepCall "risk_manager" (VRisk r) d)
  = if Risk.veto r
    then MockVars true (vetoCount v + 1)
           (<["risk_manager" := VRisk r]> (allPayloads v))
    else MockVars (vetoed v) (vetoCount v)
           (<["risk_manager" := VRisk r]> (allPayloads v)).
Proof. reflexivity. Qed.

Ltac delete_keys :=
  repeat first
    [ rewrite delete_insert_eq
    | rewrite delete_insert_ne by discriminate
    | rewrite delete_empty ].

(** X25.  The variables of [runLocalMock] after the pipeline has run, for a
    counter that is not negative: [vetoed] is the flag [_vetoed] of the
    result; the counter of vetoes has grown by one exactly when the run
    was vetoed; the payloads collected are those of the result, without
    its flags; and the agents the audit log gets an entry for are the
    ones that reported a step, in the same order, each with its payload
    at hand. *)
Theorem mock_run_variables (event : Event.t) (w : world) (count : Z) :
  (0 <= count)%Z ->
  let run := runMockPipeline event w in
  exists steps,
    calls run.2 = (calls w ++ steps)%list
    /\ let v := mock_vars_after count steps in
       run.1 !! "_vetoed" = Some (VBool (vetoed v))
       /\ vetoed v = veto_of (run.1 !! "risk_manager")
       /\ vetoCount v = (if vetoed v then count + 1 else count)%Z
       /\ allPayloads v = delete "_vetoed" (delete "status" run.1)
       /\ agentsToLog (vetoed v) = map call_key steps
       /\ Forall (fun key => is_Some (allPayloads v !! key))
            (agentsToLog (vetoed v)).
Proof.
  intros H. cbv zeta. run_in_full event w.
  - eexists. split; [reflexivity|].
    unfold mock_vars_after. cbn [app fold_left map].
    repeat first [ rewrite on_mock_step_risk, V
                 | rewrite on_mock_step_other by reflexivity ].
    cbn [vetoed vetoCount allPayloads].
    split; [reflexivity|]. split; [reflexivity|]. split; [lia|].
    split; [delete_keys; reflexivity|]. split; [reflexivity|].
    repeat constructor; lookup_results; eauto.
  - eexists. split; [reflexivity|].
    unfold mock_vars_after. cbn [app fold_left map].
    repeat first [ rewrite on_mock_step_risk, V
                 | rewrite on_mock_step_other by reflexivity ].
    cbn [vetoed vetoCount allPayloads].
    split; [reflexivity|]. split; [reflexivity|]. split; [reflexivity|].
    split; [delete_keys; reflexivity|]. split; [reflexivity|].
    repeat constructor; lookup_results; eauto.
Qed.

Lemma mock_run_variables_witness :
  (0 <= 0)%Z
  /\ exists steps,
       calls (runMockPipeline Sample.unknown Sample.start).2
       = (calls Sample.start ++ steps)%list
       /\ vetoCount (mock_vars_after 0 steps) = 1%Z.
Proof.
  assert (H : (0 <= 0)%Z) by lia.
  split; [exact H|].
  destruct (mock_run_variables Sample.unknown Sample.start 0 H)
    as (steps & E & F & G & C & _).
  exists steps. split; [exact E|].
  rewrite C, G. vm_compute. reflexivity.
Defined.
